(** * Movie recommender: the tag builder, the vectorizer and the top-K query

    A shallow embedding of [app.py]: [load_artifacts] (structured-field
    parsing, tag construction, vectorization), [fetch_poster] and
    [recommend], followed by the properties of the engine that the
    specification states about them. *)

From Stdlib Require Import QArith Lqa.
From stdpp Require Import base list strings sorting pretty.

Close Scope Q_scope.
Open Scope Z_scope.
Open Scope nat_scope.

(** ** Python exceptions and fallible computations *)

Inductive exn : Type :=
| ValueError (msg : string)
| SyntaxError
| KeyError (key : string)
| TypeError
| IndexError.

Inductive result (A : Type) : Type :=
| Ok (a : A)
| Raise (e : exn).
Arguments Ok {A} a.
Arguments Raise {A} e.

#[global] Instance result_ret : MRet result := λ A a, Ok a.
#[global] Instance result_bind : MBind result := λ A B f m,
  match m with
  | Ok a => f a
  | Raise e => Raise e
  end.

(** [try: c except Exception: h] *)
Definition try_except {A} (c : result A) (h : result A) : result A :=
  match c with
  | Ok a => Ok a
  | Raise _ => h
  end.

Definition raises {A} (c : result A) : Prop := ∃ e, c = Raise e.

(** ** Python sequences: [enumerate], [sorted], slices *)

Fixpoint enumerate_from {A} (n : nat) (l : list A) : list (nat * A) :=
  match l with
  | [] => []
  | x :: l' => (n, x) :: enumerate_from (S n) l'
  end.

(** [list(enumerate(l))] *)
Definition enumerate {A} (l : list A) : list (nat * A) := enumerate_from 0 l.

Section sorted.
Context {A : Type} (key : A → Q).

(** The only comparison [sorted] performs: [key(x) < key(y)]. *)
Definition key_lt (x y : A) : bool := negb (Qle_bool (key y) (key x)).

(** [x] comes before every element of [l] in the input: it is placed in
    front of the first element that is not strictly smaller, so equal keys
    keep their input order. *)
Fixpoint insort (x : A) (l : list A) : list A :=
  match l with
  | [] => [x]
  | y :: l' => if key_lt y x then y :: insort x l' else x :: y :: l'
  end.

Definition stable_sort (l : list A) : list A := foldr insort [] l.

(** [sorted(l, key=key, reverse=rev)].  As in CPython, a reversed sort
    reverses the list, sorts it stably in ascending order and reverses the
    outcome, which keeps elements with equal keys in their input order. *)
Definition sorted (rev : bool) (l : list A) : list A :=
  if rev then reverse (stable_sort (reverse l)) else stable_sort l.
(** [a] goes before [b] in an ascending stable sort: a smaller key, or the
    same key and [a] earlier in the input. *)
Definition ascending_then (earlier : relation A) (a b : A) : Prop :=
  (key a < key b)%Q ∨ ((key a == key b)%Q ∧ earlier a b).
End sorted.

(** Slice bounds are clipped to the length; a negative bound counts from the
    end of the sequence. *)
Definition adjust_index (len i : Z) : Z :=
  if (i <? 0)%Z then Z.max 0 (i + len) else Z.min i len.

(** [l[start:stop]] *)
Definition py_slice {A} (l : list A) (start stop : Z) : list A :=
  let len := Z.of_nat (length l) in
  let a := adjust_index len start in
  let b := adjust_index len stop in
  take (Z.to_nat (b - a)) (drop (Z.to_nat a) l).

(** ** The movie index *)

(** A row of the frame [movies[["id", "title", "tags"]]].  The frame carries
    the positional index [0 .. n-1] that [merge] gives it, so a row's label
    is its position in the list. *)
Record MovieRecord : Type := {
  id : Z;
  title : string;
  tags : string
}.

(** [movies[movies["title"] == movie].index]: the labels of the rows that
    the boolean mask selects, in row order. *)
Definition title_index (movie : string) (movies : list MovieRecord) : list nat :=
  fst <$> filter (λ p, title p.2 = movie) (enumerate movies).

(** [index[0]] *)
Definition first_label (labels : list nat) : result nat :=
  match labels with
  | [] => Raise IndexError
  | i :: _ => Ok i
  end.

(** ** Poster lookup and the query *)

Definition TMDB_IMG_BASE : string := "https://image.tmdb.org/t/p/w500".
Definition PLACEHOLDER : string := "https://via.placeholder.com/300x450?text=No+Image".

(** What [r.json().get("poster_path")] evaluates to. *)
Inductive json_outcome : Type :=
| JsonError                               (* [r.json()] or [.get] raised *)
| PosterPath (poster : option string).    (* [None] when absent or null *)

(** What [requests.get(url, timeout=5)] does. *)
Inductive http_outcome : Type :=
| RequestFailed
| Response (status_code : Z) (body : json_outcome).

Section query.
(** The metadata service is outside the program: a state [world] that
    every request reads and may change. *)
Context {world : Type}.
Variable requests_get : string → world → http_outcome * world.
(** [os.environ.get("TMDB_API_KEY")] *)
Variable TMDB_API_KEY : option string.

Definition api_key_falsy : bool :=
  match TMDB_API_KEY with
  | None => true
  | Some EmptyString => true
  | Some _ => false
  end.

Definition api_key_text : string :=
  match TMDB_API_KEY with
  | None => "None"
  | Some s => s
  end.

Definition poster_of_response (r : http_outcome) : string :=
  match r with
  | RequestFailed => PLACEHOLDER
  | Response status_code body =>
      if (status_code =? 200)%Z then
        match body with
        | PosterPath (Some (String c p)) => TMDB_IMG_BASE +:+ String c p
        | _ => PLACEHOLDER
        end
      else PLACEHOLDER
  end.

Definition fetch_poster (movie_id : Z) (w : world) : string * world :=
  if bool_decide (movie_id = 0%Z) || api_key_falsy then (PLACEHOLDER, w)
  else
    let url := "https://api.themoviedb.org/3/movie/" +:+ pretty movie_id
               +:+ "?api_key=" +:+ api_key_text in
    let '(r, w') := requests_get url w in
    (poster_of_response r, w').

(** The loop [for i in distances[1: top_k + 1]] with its two accumulators. *)
Fixpoint recommend_loop (movies : list MovieRecord) (picked : list (nat * Q))
    (recommended_names recommended_posters : list string) (w : world)
    : result (list string * list string * world) :=
  match picked with
  | [] => Ok (recommended_names, recommended_posters, w)
  | i :: picked' =>
      match movies !! i.1 with
      | None => Raise IndexError
      | Some m =>
          let movie_id := id m in
          let recommended_names := recommended_names ++ [title m] in
          let '(poster, w') := fetch_poster movie_id w in
          recommend_loop movies picked' recommended_names
            (recommended_posters ++ [poster]) w'
      end
  end.

(** [distances]: the matched row, enumerated and sorted on the score. *)
Definition distances (row : list Q) : list (nat * Q) :=
  sorted snd true (enumerate row).

Definition recommend (movie : string) (movies : list MovieRecord)
    (similarity : list (list Q)) (top_k : Z) (w : world)
    : result (list string * list string * world) :=
  match first_label (title_index movie movies) with
  | Raise _ => Ok ([], [], w)
  | Ok idx =>
      match similarity !! idx with
      | None => Raise IndexError
      | Some row =>
          recommend_loop movies (py_slice (distances row) 1 (top_k + 1)) [] [] w
      end
  end.

(** The posters of a list of ids, requested one after the other. *)
Fixpoint fetch_all (ids : list Z) (w : world) : list string * world :=
  match ids with
  | [] => ([], w)
  | i :: ids' =>
      let '(p, w') := fetch_poster i w in
      let '(ps, w'') := fetch_all ids' w' in
      (p :: ps, w'')
  end.
End query.


(** ** The structured columns of the metadata files *)

(** The Python values that the literals of the structured columns denote
    (the columns hold JSON text).  A dictionary is the list of its entries;
    its keys are strings, and a key occurs once. *)
#[warnings="-register-all"] Inductive pyval : Type :=
| PyNone
| PyBool (b : bool)
| PyInt (n : Z)
| PyStr (s : string)
| PyList (items : list pyval)
| PyDict (entries : list (string * pyval)).

(** What a cell of a structured column holds when [parse] receives it,
    told apart by what [ast.literal_eval] makes of it. *)
Inductive cell : Type :=
| Missing               (* an empty CSV cell: pandas holds the float nan *)
| Garbled               (* text that is not Python syntax *)
| NonLiteral            (* an expression that is no literal: a name, a call *)
| Literal (v : pyval).  (* the text of the literal [v] *)

(** The [ValueError] of [ast.literal_eval]; its message goes on with the
    text of the offending node. *)
Definition malformed_node : exn := ValueError "malformed node or string".

(** [ast.literal_eval(obj)] *)
Definition literal_eval (obj : cell) : result pyval :=
  match obj with
  | Missing => Raise malformed_node
  | Garbled => Raise SyntaxError
  | NonLiteral => Raise malformed_node
  | Literal v => Ok v
  end.

Fixpoint dict_get (key : string) (entries : list (string * pyval)) : option pyval :=
  match entries with
  | [] => None
  | (k, v) :: rest => if String.eqb k key then Some v else dict_get key rest
  end.

(** [v[key]] for a string [key] *)
Definition getitem (v : pyval) (key : string) : result pyval :=
  match v with
  | PyDict entries =>
      match dict_get key entries with
      | Some x => Ok x
      | None => Raise (KeyError key)
      end
  | _ => Raise TypeError
  end.

(** The elements that [for i in v] visits. *)
Definition iterate (v : pyval) : result (list pyval) :=
  match v with
  | PyList items => Ok items
  | PyDict entries => Ok ((λ e, PyStr e.1) <$> entries)
  | PyStr s => Ok ((λ c, PyStr (String c EmptyString)) <$> String.list_ascii_of_string s)
  | _ => Raise TypeError
  end.

(** [v[:3]]; slicing a dictionary raises (a [KeyError] from Python 3.12 on). *)
Definition slice3 (v : pyval) : result pyval :=
  match v with
  | PyList items => Ok (PyList (take 3 items))
  | PyStr s => Ok (PyStr (String.substring 0 3 s))
  | _ => Raise TypeError
  end.

(** [v == s] for a string [s] *)
Definition py_eq_str (v : pyval) (s : string) : bool :=
  match v with
  | PyStr t => String.eqb t s
  | _ => false
  end.

(** [[i["name"] for i in ast.literal_eval(obj)]] *)
Definition parse (obj : cell) : result (list pyval) :=
  v ← literal_eval obj;
  items ← iterate v;
  mapM (λ i, getitem i "name") items.

(** [[i["name"] for i in ast.literal_eval(obj)[:3]]] *)
Definition parse_cast (obj : cell) : result (list pyval) :=
  v ← literal_eval obj;
  top ← slice3 v;
  items ← iterate top;
  mapM (λ i, getitem i "name") items.

Fixpoint director_loop (items : list pyval) : result (list pyval) :=
  match items with
  | [] => Ok []
  | i :: rest =>
      job ← getitem i "job";
      if py_eq_str job "Director" then name ← getitem i "name"; Ok [name]
      else director_loop rest
  end.

Definition parse_director (obj : cell) : result (list pyval) :=
  v ← literal_eval obj;
  items ← iterate v;
  director_loop items.

Definition as_str (v : pyval) : result string :=
  match v with
  | PyStr s => Ok s
  | _ => Raise TypeError
  end.

(** [" ".join(x)]: every element has to be a string. *)
Definition str_join (x : list pyval) : result string :=
  strs ← mapM as_str x;
  Ok (String.concat " " strs).

(** A row of the frame [movies.merge(credits, on="title")], with the columns
    that [load_artifacts] reads. *)
Record MergedRow : Type := {
  row_id : Z;
  row_title : string;
  overview : option string;      (* [None]: the cell is missing *)
  genres : cell;
  keywords : cell;
  cast : cell;
  crew : cell
}.

(** Element-wise [series + series] and [series + " "] on string columns. *)
Definition add_col (a b : list string) : list string :=
  zip_with String.append a b.

Definition add_str (a : list string) (s : string) : list string :=
  (λ x, x +:+ s) <$> a.

(** [overview.fillna] with the empty string: a missing overview becomes
    empty text. *)
Definition fillna (col : list (option string)) : list string :=
  default EmptyString <$> col.

Section artifacts.
(** [str.lower] *)
Variable str_lower : string → string.
(** The analyzer of [CountVectorizer(stop_words="english")]: the terms of a
    document, in order, after tokenization on word boundaries and removal of
    the English stop words. *)
Variable analyze : string → list string.
(** [sklearn.metrics.pairwise.cosine_similarity], which computes in floating
    point outside this program. *)
Variable cosine_similarity : list (list Z) → list (list Q).

(** Lines 41 to 57 of [load_artifacts]: the four columns are parsed one
    after the other, each over all rows, then joined and concatenated. *)
Definition build_tags (merged : list MergedRow) : result (list MovieRecord) :=
  genres_col ← mapM parse (genres <$> merged);
  keywords_col ← mapM parse (keywords <$> merged);
  cast_col ← mapM parse_cast (cast <$> merged);
  crew_col ← mapM parse_director (crew <$> merged);
  genres_text ← mapM str_join genres_col;
  keywords_text ← mapM str_join keywords_col;
  cast_text ← mapM str_join cast_col;
  crew_text ← mapM str_join crew_col;
  let tags_col :=
    add_col (add_str (add_col (add_str (add_col (add_str (add_col (add_str
      (fillna (overview <$> merged)) " ") genres_text) " ") keywords_text) " ")
      cast_text) " ") crew_text in
  Ok (zip_with (λ r t, {| id := row_id r; title := row_title r;
                          tags := str_lower t |}) merged tags_col).

(** [CountVectorizer(max_features=5000, ...)] *)
Definition max_features : nat := 5000.

(** The failure of the vectorizer, the specification's [EmptyCorpusError]:
    in scikit-learn a [ValueError] with this message. *)
Definition EmptyCorpusError : exn :=
  ValueError "empty vocabulary; perhaps the documents only contain stop words".

(** Modelled from the spec: [CountVectorizer] is library code, absent from
    the sources.  Every occurrence of a term in the corpus, in order. *)
Definition corpus_terms (docs : list string) : list string :=
  mjoin (analyze <$> docs).

(** Modelled from the spec: the frequency of a term across the whole
    corpus ([CountVectorizer] is absent from the sources). *)
Definition term_count (docs : list string) (t : string) : nat :=
  length (filter (λ u, u = t) (corpus_terms docs)).

(** Modelled from the spec: the vocabulary of [CountVectorizer], absent from
    the sources.  It holds the [max_features] most frequent terms of the
    corpus; terms of equal frequency are taken in a fixed order. *)
Definition vocabulary (docs : list string) : list string :=
  take max_features
    (sorted (λ t, inject_Z (Z.of_nat (term_count docs t))) true
       (remove_dups (corpus_terms docs))).

(** Modelled from the spec: the row of the feature matrix that
    [CountVectorizer], absent from the sources, gives a document: one count
    per column of the vocabulary. *)
Definition count_vector (vocab : list string) (doc : string) : list Z :=
  (λ t, Z.of_nat (length (filter (λ u, u = t) (analyze doc)))) <$> vocab.

(** Modelled from the spec: [cv.fit_transform(tags).toarray()], absent from
    the sources.  It fails when the vocabulary is empty, which is also what
    an empty corpus gives. *)
Definition fit_transform (docs : list string) : result (list (list Z)) :=
  match vocabulary docs with
  | [] => Raise EmptyCorpusError
  | vocab => Ok (count_vector vocab <$> docs)
  end.

(** [load_artifacts], from the merged frame on. *)
Definition load_artifacts (merged : list MergedRow)
    : result (list MovieRecord * list (list Q)) :=
  movies ← build_tags merged;
  vectors ← fit_transform (tags <$> movies);
  Ok (movies, cosine_similarity vectors).
End artifacts.

(** ** Notions used to state the properties of the tag builder *)

(** [item] is a record whose ["name"] is the string [n]. *)
Definition has_name (item : pyval) (n : string) : Prop :=
  ∃ entries, item = PyDict entries ∧ dict_get "name" entries = Some (PyStr n).

(** The cell is the literal of a list of records named [ns], in order. *)
Definition names_of (c : cell) (ns : list string) : Prop :=
  ∃ items, c = Literal (PyList items) ∧ Forall2 has_name items ns.

(** [ns] are the names of the first three records of the list (of all of
    them when there are fewer), in order. *)
Definition top_billed_of (c : cell) (ns : list string) : Prop :=
  ∃ items, c = Literal (PyList items) ∧ Forall2 has_name (take 3 items) ns.

(** The first record of the crew list whose ["job"] is ["Director"], if
    there is one. *)
Inductive director_in : list pyval → option string → Prop :=
| director_none : director_in [] None
| director_here entries rest n :
    dict_get "job" entries = Some (PyStr "Director") →
    dict_get "name" entries = Some (PyStr n) →
    director_in (PyDict entries :: rest) (Some n)
| director_later entries job rest d :
    dict_get "job" entries = Some job →
    py_eq_str job "Director" = false →
    director_in rest d →
    director_in (PyDict entries :: rest) d.

Definition director_of (c : cell) (d : option string) : Prop :=
  ∃ items, c = Literal (PyList items) ∧ director_in items d.

(** What the four structured columns of a row say. *)
Record RowFields : Type := {
  genre_names : list string;
  keyword_names : list string;
  top_cast : list string;
  director : option string
}.

Definition describes (r : MergedRow) (f : RowFields) : Prop :=
  names_of (genres r) (genre_names f) ∧
  names_of (keywords r) (keyword_names f) ∧
  top_billed_of (cast r) (top_cast f) ∧
  director_of (crew r) (director f).

(** The tag before lowercasing, in the words of the specification: five
    parts separated by single spaces, each list joined by spaces. *)
Definition spec_tag (r : MergedRow) (f : RowFields) : string :=
  String.concat " "
    [ default EmptyString (overview r);
      String.concat " " (genre_names f);
      String.concat " " (keyword_names f);
      String.concat " " (top_cast f);
      String.concat " " (option_list (director f)) ].

(** Some structured cell of the row is missing or is not a literal. *)
Definition unreadable (c : cell) : Prop :=
  c = Missing ∨ c = Garbled ∨ c = NonLiteral.

Definition broken_row (r : MergedRow) : Prop :=
  unreadable (genres r) ∨ unreadable (keywords r) ∨
  unreadable (cast r) ∨ unreadable (crew r).

(** ** Concrete rows used to exercise the tag builder *)

Definition lower_ascii (c : Ascii.ascii) : Ascii.ascii :=
  let n := Ascii.nat_of_ascii c in
  if (65 <=? n) && (n <=? 90) then Ascii.ascii_of_nat (n + 32) else c.

(** [str.lower] on ASCII text. *)
Fixpoint ascii_lower (s : string) : string :=
  match s with
  | EmptyString => EmptyString
  | String c s' => String (lower_ascii c) (ascii_lower s')
  end.

Definition named (i : Z) (n : string) : pyval :=
  PyDict [("id", PyInt i); ("name", PyStr n)].

Definition credit (job n : string) : pyval :=
  PyDict [("job", PyStr job); ("name", PyStr n)].

Definition avatar_row : MergedRow := {|
  row_id := 19995;
  row_title := "Avatar";
  overview := Some "A paraplegic Marine";
  genres := Literal (PyList [named 28 "Action"; named 12 "Adventure"]);
  keywords := Literal (PyList [named 2964 "future"]);
  cast := Literal (PyList [named 1 "Sam Worthington"; named 2 "Zoe Saldana";
                           named 3 "Sigourney Weaver"; named 4 "Stephen Lang"]);
  crew := Literal (PyList [credit "Editor" "Stephen Rivkin";
                           credit "Director" "James Cameron";
                           credit "Producer" "Jon Landau"])
|}.

Definition avatar_fields : RowFields := {|
  genre_names := ["Action"; "Adventure"];
  keyword_names := ["future"];
  top_cast := ["Sam Worthington"; "Zoe Saldana"; "Sigourney Weaver"];
  director := Some "James Cameron"
|}.

(** A row whose overview and genres cells are empty in the file. *)
Definition sparse_row : MergedRow := {|
  row_id := 370980;
  row_title := "Chiamatemi Francesco";
  overview := None;
  genres := Missing;
  keywords := Literal (PyList [named 5565 "biography"]);
  cast := Literal (PyList [named 5 "Rodrigo de la Serna"]);
  crew := Literal (PyList [credit "Director" "Daniele Luchetti"])
|}.

(** A small analyzer to run the vectorizer on: the words between spaces,
    without one-letter words and without a few stop words. *)
Fixpoint split_on_space (cur : string) (s : string) : list string :=
  match s with
  | EmptyString => [cur]
  | String c s' =>
      if Ascii.eqb c (Ascii.ascii_of_nat 32) then cur :: split_on_space EmptyString s'
      else split_on_space (cur +:+ String c EmptyString) s'
  end.

Definition toy_stop_words : list string := ["the"; "and"; "of"; "in"; "is"].

Definition toy_analyze (doc : string) : list string :=
  filter (λ t, 2 ≤ String.length t ∧ t ∉ toy_stop_words)
    (split_on_space EmptyString doc).

(** ** Notions used to state the properties of the query *)

(** Row [a] is ranked before row [b]: a higher score, or the same score and
    a smaller row index. *)
Definition rank_before (a b : nat * Q) : Prop :=
  (b.2 < a.2)%Q ∨ ((a.2 == b.2)%Q ∧ a.1 < b.1).

(** The similarity matrix is square and has one row per movie. *)
Definition square_for (movies : list MovieRecord) (similarity : list (list Q)) : Prop :=
  length similarity = length movies ∧
  Forall (λ row, length row = length movies) similarity.

(** The query matches row [idx]: the first row whose title is [movie]. *)
Definition matches (movie : string) (movies : list MovieRecord) (idx : nat) : Prop :=
  (∃ m, movies !! idx = Some m ∧ title m = movie) ∧
  ∀ j m, j < idx → movies !! j = Some m → title m ≠ movie.

(** ** Concrete engines used to exercise the query *)

(** A metadata service that is unreachable: every request fails.  The state
    counts the requests made. *)
Definition offline_get (url : string) (w : nat) : http_outcome * nat :=
  (RequestFailed, S w).

Definition movie_row (i : Z) (t : string) : MovieRecord :=
  {| id := i; title := t; tags := EmptyString |}.

(** Three movies whose tags are "space war robot", "space war alien" and
    "romance drama": the first two share two of their three terms. *)
Definition space_movies : list MovieRecord :=
  [ {| id := 11; title := "A"; tags := "space war robot" |};
    {| id := 12; title := "B"; tags := "space war alien" |};
    {| id := 13; title := "C"; tags := "romance drama" |} ].

Definition space_similarity : list (list Q) :=
  [ [1; 2 # 3; 0]; [2 # 3; 1; 0]; [0; 0; 1] ]%Q.

(** Two movies with the same feature vector: every entry of the matrix is 1. *)
Definition twin_movies : list MovieRecord := [movie_row 21 "A"; movie_row 22 "B"].

Definition twin_similarity : list (list Q) := [ [1; 1]; [1; 1] ]%Q.

(** ** The metadata files and their join *)

(** A row of [tmdb_5000_movies.csv], with the columns that the program
    reads.  [None] is a missing cell (pandas holds nan). *)
Record MovieCsvRow : Type := {
  csv_id : Z;
  csv_title : string;
  csv_overview : option string;
  csv_release_date : option string;
  csv_vote_average : option Q;
  csv_vote_count : option Z;
  csv_runtime : option Q;
  csv_tagline : option string;
  csv_genres : cell;
  csv_keywords : cell
}.

(** A row of [tmdb_5000_credits.csv]. *)
Record CreditsCsvRow : Type := {
  credits_movie_id : Z;
  credits_title : string;
  credits_cast : cell;
  credits_crew : cell
}.

Definition join_rows (m : MovieCsvRow) (c : CreditsCsvRow) : MergedRow := {|
  row_id := csv_id m;
  row_title := csv_title m;
  overview := csv_overview m;
  genres := csv_genres m;
  keywords := csv_keywords m;
  cast := credits_cast c;
  crew := credits_crew c
|}.

(** [movies.merge(credits, on="title")]: an inner join on the title.  The
    rows follow the order of the movies file; a movie row that meets several
    credits rows gives one row per credits row, in the order of the credits
    file. *)
Definition merge (movies : list MovieCsvRow) (credits : list CreditsCsvRow)
    : list MergedRow :=
  m ← movies;
  join_rows m <$> filter (λ c, credits_title c = csv_title m) credits.

(** ** Local details of a movie *)

(** The dictionary that [get_local_details] builds. *)
Record Details : Type := {
  d_overview : option string;
  d_release_date : option string;
  d_vote_average : option Q;
  d_vote_count : option Z;
  d_runtime : option Q;
  d_tagline : option string;
  d_genres : list pyval
}.

(** The guarded block of [get_local_details]: the names of the genres when
    the cell is present and the comprehension goes through, and the initial
    empty list otherwise. *)
Definition local_genres (c : cell) : list pyval :=
  match c with
  | Missing => []                         (* [pd.notna] is false *)
  | _ =>
      match parse c with
      | Ok names => names
      | Raise _ => []                     (* [except: pass] *)
      end
  end.

(** [get_local_details(movie_id)] over the rows of [movies_csv]; [None] is
    the empty dictionary.  The file has every column that [row.get] asks
    for, so its defaults are not used. *)
Definition get_local_details (movies_csv : list MovieCsvRow) (movie_id : Z)
    : option Details :=
  match filter (λ r, csv_id r = movie_id) movies_csv with
  | [] => None
  | row :: _ =>
      Some {| d_overview := csv_overview row;
              d_release_date := csv_release_date row;
              d_vote_average := csv_vote_average row;
              d_vote_count := csv_vote_count row;
              d_runtime := csv_runtime row;
              d_tagline := csv_tagline row;
              d_genres := local_genres (csv_genres row) |}
  end.

(** ** The button handler of [main] *)

(** [row[col]] on a row of the index, whose columns are [id], [title] and
    [tags]. *)
Definition movie_column (m : MovieRecord) (col : string) : result pyval :=
  if String.eqb col "id" then Ok (PyInt (id m))
  else if String.eqb col "title" then Ok (PyStr (title m))
  else if String.eqb col "tags" then Ok (PyStr (tags m))
  else Raise (KeyError col).

(** [movies.iloc[i]] *)
Definition iloc (movies : list MovieRecord) (i : nat) : result MovieRecord :=
  match movies !! i with
  | Some m => Ok m
  | None => Raise IndexError
  end.

(** [movies.iloc[movies[movies["title"] == name].index[0]]["movie_id"]] *)
Definition lookup_movie_id (name : string) (movies : list MovieRecord)
    : result pyval :=
  r ← first_label (title_index name movies);
  row ← iloc movies r;
  movie_column row "movie_id".

(** The [try] block of the card loop: [mid], or [None] when it raised. *)
Definition card_movie_id (name : string) (movies : list MovieRecord)
    : option pyval :=
  match lookup_movie_id name movies with
  | Ok mid => Some mid
  | Raise _ => None
  end.

Section handler.
Context {world : Type}.
Variable requests_get : string → world → http_outcome * world.
Variable TMDB_API_KEY : option string.
(** What follows the lookup of [sel_id] in the handler: the details of the
    selected movie and the rendering of the page. *)
Context {page : Type}.
Variable render : list string → list string → pyval → world → result page.

(** The body of [if st.button("Show recommendation")], up to [sel_id]. *)
Definition show_recommendation (selected_movie : string)
    (movies : list MovieRecord) (similarity : list (list Q)) (w : world)
    : result page :=
  '(names, posters, w') ←
    recommend requests_get TMDB_API_KEY selected_movie movies similarity 5 w;
  sel_id ← lookup_movie_id selected_movie movies;
  render names posters sel_id w'.
End handler.

(** ** More concrete rows *)

Definition avatar_csv : MovieCsvRow := {|
  csv_id := 19995;
  csv_title := "Avatar";
  csv_overview := Some "A paraplegic Marine";
  csv_release_date := Some "2009-12-10";
  csv_vote_average := Some (72 # 10)%Q;
  csv_vote_count := Some 11800%Z;
  csv_runtime := Some 162%Q;
  csv_tagline := Some "Enter the World of Pandora.";
  csv_genres := genres avatar_row;
  csv_keywords := keywords avatar_row
|}.

Definition avatar_credits : CreditsCsvRow := {|
  credits_movie_id := 19995;
  credits_title := "Avatar";
  credits_cast := cast avatar_row;
  credits_crew := crew avatar_row
|}.

(** A movie whose genres cell is empty and that has no credits row. *)
Definition orphan_csv : MovieCsvRow := {|
  csv_id := 370980;
  csv_title := "Chiamatemi Francesco";
  csv_overview := None;
  csv_release_date := None;
  csv_vote_average := None;
  csv_vote_count := Some 0%Z;
  csv_runtime := None;
  csv_tagline := None;
  csv_genres := Missing;
  csv_keywords := keywords sparse_row
|}.

(** A cast list whose fourth record has no name. *)
Definition long_cast : cell :=
  Literal (PyList [named 1 "Sam Worthington"; named 2 "Zoe Saldana";
                   named 3 "Sigourney Weaver"; PyDict [("id", PyInt 4)]]).

(** A service that answers every request with the same poster. *)
Definition online_get (url : string) (w : nat) : http_outcome * nat :=
  (Response 200 (PosterPath (Some "/avatar.jpg")), S w).


(** ** Facts about [enumerate], [sorted] and slices *)

Lemma enumerate_from_length {A} (n : nat) (l : list A) :
  length (enumerate_from n l) = length l.
Proof. revert n. induction l as [|x l IH]; intros n; simpl; [done|]. by rewrite IH. Qed.

Lemma elem_of_enumerate_from {A} (n : nat) (l : list A) (p : nat * A) :
  p ∈ enumerate_from n l → n ≤ p.1 ∧ l !! (p.1 - n) = Some p.2.
Proof.
  revert n. induction l as [|x l IH]; intros n; simpl.
  - by intros ?%elem_of_nil.
  - intros [->|Hin]%elem_of_cons; simpl.
    + split; [lia|]. by rewrite Nat.sub_diag.
    + destruct (IH _ Hin) as [Hle Hl]. split; [lia|].
      replace (p.1 - n) with (S (p.1 - S n)) by lia. done.
Qed.

Lemma elem_of_enumerate {A} (l : list A) (p : nat * A) :
  p ∈ enumerate l → l !! p.1 = Some p.2.
Proof.
  intros [_ H]%elem_of_enumerate_from. by rewrite Nat.sub_0_r in H.
Qed.

Lemma enumerate_from_lookup {A} (n i : nat) (l : list A) (x : A) :
  l !! i = Some x → (n + i, x) ∈ enumerate_from n l.
Proof.
  revert n i. induction l as [|y l IH]; intros n i; [done|].
  destruct i as [|i]; simpl.
  - intros [= ->]. rewrite Nat.add_0_r. left.
  - intros Hi. right. replace (n + S i) with (S n + i) by lia. by apply IH.
Qed.

Lemma enumerate_from_indices {A} (n : nat) (l : list A) :
  (enumerate_from n l).*1 = seq n (length l).
Proof.
  revert n. induction l as [|x l IH]; intros n; simpl; [done|]. by rewrite IH.
Qed.

Lemma enumerate_from_ascending {A} (n : nat) (l : list A) :
  StronglySorted (λ a b, a.1 < b.1) (enumerate_from n l).
Proof.
  revert n. induction l as [|x l IH]; intros n; simpl; constructor; [apply IH|].
  apply Forall_forall. intros p [Hle _]%elem_of_enumerate_from. simpl. lia.
Qed.

Lemma StronglySorted_rev {A} (R : relation A) (l : list A) :
  StronglySorted R l → StronglySorted (flip R) (reverse l).
Proof.
  induction 1 as [|x l Hl IH Hx]; [constructor|].
  rewrite reverse_cons.
  apply StronglySorted_app; split_and!; [|done|repeat constructor].
  intros a b Ha ->%list_elem_of_singleton. unfold flip.
  rewrite Forall_forall in Hx. apply Hx. by apply elem_of_reverse.
Qed.

Section sorted_facts.
Context {A : Type} (key : A → Q).

Lemma key_lt_spec (x y : A) : key_lt key x y = true ↔ (key x < key y)%Q.
Proof.
  unfold key_lt. rewrite negb_true_iff, <- not_true_iff_false, Qle_bool_iff.
  split; [apply Qnot_le_lt | apply Qlt_not_le].
Qed.

Lemma insort_perm (x : A) (l : list A) : insort key x l ≡ₚ x :: l.
Proof.
  induction l as [|y l IH]; simpl; [done|].
  destruct (key_lt key y x); [|done].
  rewrite IH. apply Permutation_swap.
Qed.

Lemma stable_sort_perm (l : list A) : stable_sort key l ≡ₚ l.
Proof.
  induction l as [|x l IH]; simpl; [done|].
  by rewrite insort_perm, IH.
Qed.

Lemma sorted_perm (rev : bool) (l : list A) : sorted key rev l ≡ₚ l.
Proof.
  destruct rev; simpl; [|apply stable_sort_perm].
  by rewrite reverse_Permutation, stable_sort_perm, reverse_Permutation.
Qed.

Lemma insort_sorted (earlier : relation A) (x : A) (s : list A) :
  StronglySorted (ascending_then key earlier) s →
  Forall (earlier x) s →
  StronglySorted (ascending_then key earlier) (insort key x s).
Proof.
  induction 1 as [|y s Hs IH Hy]; intros Hx; simpl; [repeat constructor|].
  apply Forall_cons in Hx as [Hxy Hxs].
  destruct (key_lt key y x) eqn:Hlt.
  - apply key_lt_spec in Hlt. constructor; [by apply IH|].
    rewrite insort_perm. constructor; [by left|done].
  - apply not_true_iff_false in Hlt. rewrite key_lt_spec in Hlt.
    apply Qnot_lt_le in Hlt.
    assert (ascending_then key earlier x y) as Hfirst.
    { destruct (Qle_lt_or_eq _ _ Hlt); [by left|by right]. }
    constructor; [by constructor|]. constructor; [done|].
    rewrite Forall_forall in Hy, Hxs. apply Forall_forall. intros z Hz.
    destruct (Hy z Hz) as [Hyz|[Hyz _]].
    + left. eapply Qle_lt_trans; eauto.
    + destruct (Qle_lt_or_eq _ _ Hlt) as [Hxy'|Hxy'].
      * left. by rewrite <- Hyz.
      * right. split; [by rewrite Hxy'|by apply Hxs].
Qed.

Lemma stable_sort_sorted (earlier : relation A) (l : list A) :
  StronglySorted earlier l →
  StronglySorted (ascending_then key earlier) (stable_sort key l).
Proof.
  induction 1 as [|x l Hl IH Hx]; simpl; [constructor|].
  apply insort_sorted; [done|]. by rewrite stable_sort_perm.
Qed.
End sorted_facts.

Lemma StronglySorted_weaken {A} (R1 R2 : relation A) (l : list A) :
  (∀ a b, R1 a b → R2 a b) → StronglySorted R1 l → StronglySorted R2 l.
Proof.
  intros HR. induction 1 as [|x l Hl IH Hx]; constructor; [done|].
  eapply Forall_impl; eauto.
Qed.



Lemma py_slice_subseteq {A} (l : list A) (start stop : Z) :
  py_slice l start stop ⊆ l.
Proof.
  unfold py_slice. intros x Hx. eapply subseteq_drop, subseteq_take, Hx.
Qed.

Lemma py_slice_tail {A} (h : A) (rest : list A) (stop : Z) :
  py_slice (h :: rest) 1 stop ⊆ rest.
Proof.
  unfold py_slice. cbv zeta.
  assert (Z.to_nat (adjust_index (Z.of_nat (length (h :: rest))) 1) = 1) as ->.
  { unfold adjust_index. simpl length. case_match; lia. }
  intros x Hx. eapply subseteq_take, Hx.
Qed.

Lemma py_slice_length {A} (l : list A) (start stop : Z) :
  length (py_slice l start stop) =
    Z.to_nat (adjust_index (Z.of_nat (length l)) stop
              - adjust_index (Z.of_nat (length l)) start).
Proof.
  unfold py_slice. rewrite length_take, length_drop.
  unfold adjust_index. repeat case_match; lia.
Qed.

(** The slice [l[1 : k + 1]] for the three ranges of [k]. *)
Lemma top_slice_length {A} (l : list A) (k : Z) :
  (0 ≤ k)%Z → length (py_slice l 1 (k + 1)) = Z.to_nat k `min` (length l - 1).
Proof.
  intros Hk. rewrite py_slice_length. unfold adjust_index.
  repeat case_match; lia.
Qed.

Lemma top_slice_empty {A} (l : list A) (k : Z) :
  (-1 ≤ k ≤ 0)%Z → py_slice l 1 (k + 1) = [].
Proof.
  intros Hk. apply length_zero_iff_nil. rewrite py_slice_length.
  unfold adjust_index. repeat case_match; lia.
Qed.

Lemma top_slice_length_negative {A} (l : list A) (k : Z) :
  (k ≤ -2)%Z → length (py_slice l 1 (k + 1)) = Z.to_nat (Z.of_nat (length l) + k).
Proof.
  intros Hk. rewrite py_slice_length. unfold adjust_index.
  repeat case_match; lia.
Qed.

(** The ranking [distances] *)

Lemma distances_perm (row : list Q) : distances row ≡ₚ enumerate row.
Proof. apply sorted_perm. Qed.

Lemma distances_length (row : list Q) : length (distances row) = length row.
Proof.
  rewrite (Permutation_length (distances_perm row)). apply enumerate_from_length.
Qed.

Lemma distances_ranked (row : list Q) : StronglySorted rank_before (distances row).
Proof.
  unfold distances, sorted, enumerate.
  pose proof (enumerate_from_ascending 0 row) as Hasc.
  apply StronglySorted_rev in Hasc.
  apply (stable_sort_sorted snd) in Hasc.
  apply StronglySorted_rev in Hasc.
  eapply StronglySorted_weaken; [|exact Hasc].
  intros a b [Hlt|[Heq Hidx]]; [by left|right].
  split; [by symmetry|exact Hidx].
Qed.

Lemma distances_in_range (row : list Q) (p : nat * Q) :
  p ∈ distances row → row !! p.1 = Some p.2.
Proof. rewrite distances_perm. apply elem_of_enumerate. Qed.

Lemma distances_complete (row : list Q) (i : nat) (s : Q) :
  row !! i = Some s → (i, s) ∈ distances row.
Proof.
  intros Hi. rewrite distances_perm. by apply (enumerate_from_lookup 0).
Qed.

Lemma distances_indices_NoDup (row : list Q) : NoDup (distances row).*1.
Proof.
  rewrite distances_perm. unfold enumerate.
  rewrite enumerate_from_indices. apply NoDup_seq.
Qed.

(** When no other row outranks the row [idx], it heads the ranking. *)
Lemma distances_head (row : list Q) (idx : nat) (self : Q) :
  row !! idx = Some self →
  (∀ j s, row !! j = Some s → j ≠ idx →
     (s < self)%Q ∨ ((s == self)%Q ∧ idx < j)) →
  ∃ rest, distances row = (idx, self) :: rest.
Proof.
  intros Hself Hbest.
  pose proof (distances_complete row idx self Hself) as Hin.
  pose proof (distances_ranked row) as Hsorted.
  pose proof (distances_indices_NoDup row) as Hnodup.
  pose proof (distances_in_range row) as Hrange.
  destruct (distances row) as [|h rest]; [by apply elem_of_nil in Hin|].
  apply elem_of_cons in Hin as [<-|Hin]; [by exists rest|]. exfalso.
  apply StronglySorted_cons in Hsorted as [Hh _].
  rewrite Forall_forall in Hh. specialize (Hh _ Hin).
  simpl in Hnodup. apply NoDup_cons in Hnodup as [Hfresh _].
  assert (h.1 ≠ idx) as Hne.
  { intros Heq. apply Hfresh. apply list_elem_of_fmap. by exists (idx, self). }
  destruct (Hbest h.1 h.2 (Hrange h ltac:(left)) Hne) as [Hlt|[Heq Hlt]];
    destruct Hh as [Hgt|[Heq' Hgt]]; simpl in *; try lra. lia.
Qed.

(** The row that a query matches *)

Lemma title_index_from (movie : string) (movies : list MovieRecord) (n : nat) :
  match fst <$> filter (λ p, title p.2 = movie) (enumerate_from n movies) with
  | [] => ∀ m, m ∈ movies → title m ≠ movie
  | i :: _ => matches movie movies (i - n) ∧ n ≤ i
  end.
Proof.
  revert n. induction movies as [|m movies IH]; intros n; simpl.
  - by intros m ?%elem_of_nil.
  - rewrite filter_cons. case_decide as Hm; simpl in *.
    + rewrite Nat.sub_diag. split; [|lia]. split; [by exists m|]. lia.
    + specialize (IH (S n)).
      destruct (fst <$> filter _ (enumerate_from (S n) movies)) as [|i rest].
      * intros m' [->|?]%elem_of_cons; auto.
      * destruct IH as [[(m' & Hm' & Ht) Hfirst] Hle]. split; [|lia].
        replace (i - n) with (S (i - S n)) by lia. split; [by exists m'|].
        intros [|j] m'' Hj; simpl; [by intros [= <-]|].
        apply Hfirst. lia.
Qed.

Lemma first_label_matches (movie : string) (movies : list MovieRecord) (idx : nat) :
  first_label (title_index movie movies) = Ok idx → matches movie movies idx.
Proof.
  unfold title_index, enumerate. pose proof (title_index_from movie movies 0) as H.
  destruct (fst <$> filter _ _) as [|i rest]; simpl; [done|].
  intros [= <-]. rewrite Nat.sub_0_r in H. by destruct H.
Qed.

Lemma first_label_unmatched (movie : string) (movies : list MovieRecord) :
  (∀ m, m ∈ movies → title m ≠ movie) ↔
  first_label (title_index movie movies) = Raise IndexError.
Proof.
  unfold title_index, enumerate. pose proof (title_index_from movie movies 0) as H.
  destruct (fst <$> filter _ _) as [|i rest]; simpl; [done|].
  split; [|done]. intros Hno. destruct H as [[(m & Hm & Ht) _] _].
  destruct (Hno m); [|done]. by eapply list_elem_of_lookup_2.
Qed.

Lemma matches_first_label (movie : string) (movies : list MovieRecord) (idx : nat) :
  matches movie movies idx → first_label (title_index movie movies) = Ok idx.
Proof.
  intros [(m & Hm & Ht) Hfirst].
  destruct (first_label (title_index movie movies)) as [i|e] eqn:Hi.
  - apply first_label_matches in Hi as [(m' & Hm' & Ht') Hfirst'].
    f_equal. destruct (Nat.lt_total i idx) as [Hlt|[->|Hlt]]; [|done|].
    + by destruct (Hfirst i m' Hlt Hm').
    + by destruct (Hfirst' idx m Hlt Hm).
  - assert (e = IndexError) as ->.
    { unfold first_label in Hi. destruct (title_index movie movies); congruence. }
    rewrite <- first_label_unmatched in Hi. destruct (Hi m); [|done].
    by eapply list_elem_of_lookup_2.
Qed.

(** ** The query *)

Arguments fetch_poster : simpl never.

Section query_facts.
Context {world : Type}.
Variable requests_get : string → world → http_outcome * world.
Variable TMDB_API_KEY : option string.

Local Abbreviation fetch_poster := (fetch_poster requests_get TMDB_API_KEY).
Local Abbreviation fetch_all := (fetch_all requests_get TMDB_API_KEY).
Local Abbreviation recommend_loop := (recommend_loop requests_get TMDB_API_KEY).
Local Abbreviation recommend := (recommend requests_get TMDB_API_KEY).

Lemma fetch_all_cons (i : Z) (ids : list Z) (w : world) :
  fetch_all (i :: ids) w =
    ((fetch_poster i w).1 :: (fetch_all ids (fetch_poster i w).2).1,
     (fetch_all ids (fetch_poster i w).2).2).
Proof.
  simpl. destruct (fetch_poster i w) as [p w1]. simpl.
  by destruct (fetch_all ids w1).
Qed.

Lemma fetch_all_length (ids : list Z) (w : world) :
  length (fetch_all ids w).1 = length ids.
Proof.
  revert w. induction ids as [|i ids IH]; intros w; simpl; [done|].
  destruct (fetch_poster i w) as [p w1]. specialize (IH w1).
  destruct (fetch_all ids w1) as [ps w2]. simpl in *. by rewrite IH.
Qed.

(** The [i]-th poster is the answer to the request made for the [i]-th id,
    in the state that the [i] earlier requests left. *)
Lemma fetch_all_lookup (ids : list Z) (w : world) (i : nat) (x : Z) :
  ids !! i = Some x →
  (fetch_all ids w).1 !! i = Some (fetch_poster x (fetch_all (take i ids) w).2).1.
Proof.
  revert w i. induction ids as [|y ids IH]; intros w i; [done|].
  destruct i as [|i]; simpl.
  - intros [= ->]. destruct (fetch_poster x w) as [p w1].
    by destruct (fetch_all ids w1).
  - intros Hi. destruct (fetch_poster y w) as [p w1].
    specialize (IH w1 i Hi).
    destruct (fetch_all ids w1) as [ps w2]. destruct (fetch_all (take i ids) w1).
    done.
Qed.

Lemma recommend_loop_spec (movies : list MovieRecord) (picked : list (nat * Q)) :
  Forall (λ p, p.1 < length movies) picked →
  ∃ rows, Forall2 (λ p m, movies !! p.1 = Some m) picked rows ∧
    ∀ names posters w,
      recommend_loop movies picked names posters w =
        Ok (names ++ (title <$> rows),
            posters ++ (fetch_all (id <$> rows) w).1,
            (fetch_all (id <$> rows) w).2).
Proof.
  induction picked as [|p picked IH]; intros Hin.
  - exists []. split; [constructor|]. intros names posters w.
    simpl. by rewrite !app_nil_r.
  - apply Forall_cons in Hin as [Hp Hin].
    destruct (lookup_lt_is_Some_2 movies p.1 Hp) as [m Hm].
    destruct (IH Hin) as (rows & Hrows & Hloop).
    exists (m :: rows). split; [by constructor|]. intros names posters w.
    rewrite !fmap_cons, fetch_all_cons. simpl. rewrite Hm.
    destruct (fetch_poster (id m) w) as [poster w1].
    rewrite Hloop. simpl. by rewrite <- !app_assoc.
Qed.

Lemma recommend_matched (movie : string) (movies : list MovieRecord)
    (similarity : list (list Q)) (k : Z) (idx : nat) (row : list Q) :
  matches movie movies idx →
  similarity !! idx = Some row →
  length row = length movies →
  ∃ rows, Forall2 (λ p m, movies !! p.1 = Some m)
            (py_slice (distances row) 1 (k + 1)) rows ∧
    ∀ w, recommend movie movies similarity k w =
      Ok (title <$> rows, (fetch_all (id <$> rows) w).1,
          (fetch_all (id <$> rows) w).2).
Proof.
  intros Hidx Hrow Hlen.
  destruct (recommend_loop_spec movies (py_slice (distances row) 1 (k + 1)))
    as (rows & Hrows & Hloop).
  { apply Forall_forall. intros p Hp%py_slice_subseteq%distances_in_range.
    rewrite <- Hlen. by eapply lookup_lt_Some. }
  exists rows. split; [done|]. intros w. unfold recommend.
  by rewrite (matches_first_label _ _ _ Hidx), Hrow, Hloop.
Qed.

Lemma recommend_unmatched (movie : string) (movies : list MovieRecord)
    (similarity : list (list Q)) (k : Z) (w : world) :
  (∀ m, m ∈ movies → title m ≠ movie) →
  recommend movie movies similarity k w = Ok ([], [], w).
Proof.
  intros Hno. unfold recommend.
  apply first_label_unmatched in Hno. by rewrite Hno.
Qed.

Lemma matched_or_not (movie : string) (movies : list MovieRecord) :
  (∃ idx, matches movie movies idx) ∨ (∀ m, m ∈ movies → title m ≠ movie).
Proof.
  destruct (first_label (title_index movie movies)) as [idx|e] eqn:H.
  - left. exists idx. by apply first_label_matches.
  - right. apply first_label_unmatched.
    unfold first_label in *. destruct (title_index movie movies); congruence.
Qed.

Lemma square_for_row (movies : list MovieRecord) (similarity : list (list Q))
    (movie : string) (idx : nat) :
  square_for movies similarity → matches movie movies idx →
  ∃ row, similarity !! idx = Some row ∧ length row = length movies.
Proof.
  intros [Hn Hrows] [(m & Hm & _) _].
  apply lookup_lt_Some in Hm. rewrite <- Hn in Hm.
  destruct (lookup_lt_is_Some_2 _ _ Hm) as [row Hrow]. exists row.
  split; [done|]. rewrite Forall_forall in Hrows. apply Hrows.
  by eapply list_elem_of_lookup_2.
Qed.

(** C1 on the code: two movies with equal feature vectors, so that every
    similarity is 1.  Queried for "B" (row 1), the stable sort keeps row 0
    in front of row 1, the slice [distances[1:2]] drops row 0, and the
    result is the queried movie itself. *)
Theorem recommend_returns_query_on_tie (w : world) :
  matches "B" twin_movies 1 ∧
  ∃ posters w',
    recommend "B" twin_movies twin_similarity 1 w = Ok (["B"], posters, w').
Proof.
  split.
  { split; [by eexists|]. intros [|j] m Hj; [by intros [= <-]|lia]. }
  unfold recommend.
  change (first_label (title_index "B" twin_movies)) with (Ok 1 : result nat).
  change (twin_similarity !! 1) with (Some [1; 1]%Q).
  change (py_slice (distances [1; 1]%Q) 1 (1 + 1)) with [(1, 1%Q)].
  simpl. destruct (fetch_poster 22 w) as [poster w1]. by eexists _, _.
Qed.

Lemma matched_rows_in_index (movies : list MovieRecord)
    (picked : list (nat * Q)) (rows : list MovieRecord) :
  Forall2 (λ p m, movies !! p.1 = Some m) picked rows →
  Forall (λ m, m ∈ movies) rows ∧
  Forall2 (λ p name, title <$> movies !! p.1 = Some name) picked (title <$> rows).
Proof.
  induction 1 as [|p m picked rows Hm _ [IH1 IH2]]; [by split; constructor|].
  split; simpl; constructor; try done.
  - by eapply list_elem_of_lookup_2.
  - by rewrite Hm.
Qed.

(** X5: where the query does leave itself out.  When the matched row heads
    the ranking, that is, when every row with a smaller index has a strictly
    smaller similarity and no row has a larger one, no returned entry is the
    matched row. *)
Lemma recommend_excludes_query_when_first (movie : string)
    (movies : list MovieRecord) (similarity : list (list Q)) (k : Z) (w : world)
    (idx : nat) (row : list Q) (self : Q) :
  matches movie movies idx →
  similarity !! idx = Some row →
  length row = length movies →
  row !! idx = Some self →
  (∀ j s, row !! j = Some s → j ≠ idx →
     (s < self)%Q ∨ ((s == self)%Q ∧ idx < j)) →
  ∃ names posters w',
    recommend movie movies similarity k w = Ok (names, posters, w') ∧
    Forall2 (λ p name, title <$> movies !! p.1 = Some name)
      (py_slice (distances row) 1 (k + 1)) names ∧
    Forall (λ p, p.1 ≠ idx) (py_slice (distances row) 1 (k + 1)).
Proof.
  intros Hidx Hrow Hlen Hself Hbest.
  destruct (recommend_matched movie movies similarity k idx row Hidx Hrow Hlen)
    as (rows & Hrows & Hrec).
  eexists _, _, _. split; [apply Hrec|].
  split; [by apply matched_rows_in_index in Hrows as [_ ?]|].
  destruct (distances_head row idx self Hself Hbest) as [rest Hd].
  pose proof (distances_indices_NoDup row) as Hnodup.
  rewrite Hd in Hnodup |- *. simpl in Hnodup.
  apply NoDup_cons in Hnodup as [Hfresh _].
  apply Forall_forall. intros p Hp%py_slice_tail Heq. apply Hfresh.
  apply list_elem_of_fmap. by exists p.
Qed.

(** C5: when no row of the index carries the queried title, [recommend]
    returns the two empty sequences as an ordinary result (no exception
    leaves it), whatever the matrix and [k] are, and makes no request. *)
Theorem recommend_unknown_title (movie : string) (movies : list MovieRecord)
    (similarity : list (list Q)) (k : Z) (w : world) :
  (∀ m, m ∈ movies → title m ≠ movie) →
  recommend movie movies similarity k w = Ok ([], [], w).
Proof. apply recommend_unmatched. Qed.

(** C6: for a matched query on a square matrix and [k >= 0], [recommend]
    returns (it does not raise), the result has at most [k] entries, and it
    has fewer than [k] only when fewer than [k] other rows exist: the length
    is exactly [min k (n - 1)], so nothing is padded. *)
Theorem recommend_at_most_k (movie : string) (movies : list MovieRecord)
    (similarity : list (list Q)) (k : Z) (w : world) (idx : nat) :
  matches movie movies idx →
  square_for movies similarity →
  (0 ≤ k)%Z →
  ∃ names posters w',
    recommend movie movies similarity k w = Ok (names, posters, w') ∧
    (Z.of_nat (length names) ≤ k)%Z ∧
    ((Z.of_nat (length names) < k)%Z → (Z.of_nat (length movies - 1) < k)%Z) ∧
    length names = Z.to_nat k `min` (length movies - 1).
Proof.
  intros Hidx Hsq Hk.
  destruct (square_for_row _ _ _ _ Hsq Hidx) as (row & Hrow & Hlen).
  destruct (recommend_matched movie movies similarity k idx row Hidx Hrow Hlen)
    as (rows & Hrows & Hrec).
  eexists _, _, _. split; [apply Hrec|].
  apply Forall2_length in Hrows.
  rewrite top_slice_length, distances_length, Hlen in Hrows by done.
  rewrite length_fmap, <- Hrows. lia.
Qed.

(** C10: on a square matrix [recommend] returns two sequences of the same
    length, and they are aligned: there are rows of the index such that the
    names are their titles, in order, and the posters are the answers to the
    requests made for their ids, in the same order; position by position,
    the [i]-th poster is the one fetched for the id of the row whose title is
    the [i]-th name. *)
Theorem recommend_names_posters_aligned (movie : string)
    (movies : list MovieRecord) (similarity : list (list Q)) (k : Z) (w : world) :
  square_for movies similarity →
  ∃ names posters w' rows,
    recommend movie movies similarity k w = Ok (names, posters, w') ∧
    length names = length posters ∧
    Forall (λ m, m ∈ movies) rows ∧
    names = title <$> rows ∧
    fetch_all (id <$> rows) w = (posters, w') ∧
    ∀ i m, rows !! i = Some m →
      names !! i = Some (title m) ∧
      posters !! i =
        Some (fetch_poster (id m) (fetch_all (id <$> take i rows) w).2).1.
Proof.
  intros Hsq.
  assert (∃ rows, Forall (λ m, m ∈ movies) rows ∧
            recommend movie movies similarity k w =
              Ok (title <$> rows, (fetch_all (id <$> rows) w).1,
                  (fetch_all (id <$> rows) w).2)) as (rows & Hin & Hrec).
  { destruct (matched_or_not movie movies) as [[idx Hidx]|Hno].
    - destruct (square_for_row _ _ _ _ Hsq Hidx) as (row & Hrow & Hlen).
      destruct (recommend_matched movie movies similarity k idx row Hidx Hrow Hlen)
        as (rows & Hrows & Hrec).
      exists rows. split; [|apply Hrec].
      by apply matched_rows_in_index in Hrows as [? _].
    - exists []. split; [constructor|]. by apply recommend_unmatched. }
  eexists _, _, _, rows. split; [exact Hrec|].
  split_and!; [|done|done|by destruct (fetch_all (id <$> rows) w)|].
  - by rewrite fetch_all_length, !length_fmap.
  - intros i m Hm. split; [by rewrite list_lookup_fmap, Hm|].
    rewrite fmap_take. apply fetch_all_lookup.
    by rewrite list_lookup_fmap, Hm.
Qed.


(** C2, as the code has it: on a square matrix and for [k <= 0],
    [recommend] returns without raising; the result is empty when [k] is 0
    or -1 and when no title matches; for a matched title and [k <= -2] the
    slice end [k + 1] counts from the end of the ranking, and the result has
    [max 0 (n + k)] entries. *)
Theorem recommend_nonpositive_k (movie : string) (movies : list MovieRecord)
    (similarity : list (list Q)) (k : Z) (w : world) :
  square_for movies similarity →
  (k ≤ 0)%Z →
  ∃ names posters w',
    recommend movie movies similarity k w = Ok (names, posters, w') ∧
    ((-1 ≤ k)%Z → names = [] ∧ posters = [] ∧ w' = w) ∧
    ((∀ m, m ∈ movies → title m ≠ movie) → names = []) ∧
    (∀ idx, matches movie movies idx → (k ≤ -2)%Z →
       length names = Z.to_nat (Z.of_nat (length movies) + k)).
Proof.
  intros Hsq Hk.
  destruct (matched_or_not movie movies) as [[idx Hidx]|Hno].
  - destruct (square_for_row _ _ _ _ Hsq Hidx) as (row & Hrow & Hlen).
    destruct (recommend_matched movie movies similarity k idx row Hidx Hrow Hlen)
      as (rows & Hrows & Hrec).
    eexists _, _, _. split; [apply Hrec|]. split_and!.
    + intros Hk'. rewrite top_slice_empty in Hrows by lia.
      by apply Forall2_nil_inv_l in Hrows as ->.
    + intros Hno. destruct Hidx as [(m & Hm & Ht) _].
      destruct (Hno m); [|done]. by eapply list_elem_of_lookup_2.
    + intros idx' _ Hk'. apply Forall2_length in Hrows.
      rewrite top_slice_length_negative, distances_length, Hlen in Hrows by done.
      by rewrite length_fmap.
  - eexists _, _, _. split; [by apply recommend_unmatched|]. split_and!; try done.
    intros idx [(m & Hm & Ht) _]. destruct (Hno m); [|done].
    by eapply list_elem_of_lookup_2.
Qed.

End query_facts.

(** ** The query on the concrete engines *)

Lemma space_matches_A : matches "A" space_movies 0.
Proof. split; [by eexists|]. intros j m Hj. lia. Defined.

Lemma space_square : square_for space_movies space_similarity.
Proof. split; [reflexivity|]. repeat constructor. Defined.

Lemma space_no_unknown_title :
  ∀ m, m ∈ space_movies → title m ≠ "Unknown Title".
Proof. apply Forall_forall. repeat constructor; discriminate. Defined.

Lemma recommend_unknown_title_witness :
  (∀ m, m ∈ space_movies → title m ≠ "Unknown Title") ∧
  recommend offline_get (Some "key") "Unknown Title" space_movies
    space_similarity 5 0 = Ok ([], [], 0).
Proof.
  split; [exact space_no_unknown_title|].
  exact (recommend_unknown_title offline_get (Some "key") "Unknown Title"
           space_movies space_similarity 5 0 space_no_unknown_title).
Defined.

Lemma recommend_at_most_k_witness :
  matches "A" space_movies 0 ∧
  square_for space_movies space_similarity ∧
  (0 ≤ 5)%Z ∧
  ∃ names posters w',
    recommend offline_get (Some "key") "A" space_movies space_similarity 5 0 =
      Ok (names, posters, w') ∧
    length names = 2.
Proof.
  split; [exact space_matches_A|]. split; [exact space_square|].
  split; [lia|].
  destruct (recommend_at_most_k offline_get (Some "key") "A" space_movies
              space_similarity 5 0 0 space_matches_A space_square)
    as (names & posters & w' & Hrec & _ & _ & Hlen); [lia|].
  by exists names, posters, w'.
Defined.

Lemma recommend_names_posters_aligned_witness :
  square_for space_movies space_similarity ∧
  ∃ names posters w',
    recommend offline_get (Some "key") "A" space_movies space_similarity 2 0 =
      Ok (names, posters, w') ∧
    length names = length posters.
Proof.
  split; [exact space_square|].
  destruct (recommend_names_posters_aligned offline_get (Some "key") "A"
              space_movies space_similarity 2 0 space_square)
    as (names & posters & w' & rows & Hrec & Hlen & _).
  by exists names, posters, w'.
Defined.


Lemma recommend_nonpositive_k_witness :
  square_for space_movies space_similarity ∧
  (-2 ≤ 0)%Z ∧
  ∃ names posters w',
    recommend offline_get (Some "key") "A" space_movies space_similarity (-2) 0 =
      Ok (names, posters, w') ∧
    length names = 1.
Proof.
  split; [exact space_square|]. split; [lia|].
  destruct (recommend_nonpositive_k offline_get (Some "key") "A" space_movies
              space_similarity (-2) 0 space_square)
    as (names & posters & w' & Hrec & _ & _ & Hlen); [lia|].
  exists names, posters, w'. split; [exact Hrec|].
  apply (Hlen 0 space_matches_A). lia.
Defined.

(** C2 as stated fails: with three movies and [k = -2] the slice
    [distances[1:-1]] still holds the middle entry of the ranking. *)
Lemma recommend_negative_k_nonempty :
  ¬ ((-2 ≤ 0)%Z →
     ∃ posters w',
       recommend offline_get None "A" space_movies space_similarity (-2) 0 =
         Ok ([], posters, w')).
Proof.
  intros H. destruct H as (posters & w' & H); [lia|].
  vm_compute in H. discriminate H.
Qed.

Example recommend_negative_k_value :
  recommend offline_get None "A" space_movies space_similarity (-2) 0 =
    Ok (["B"], [PLACEHOLDER], 0).
Proof. reflexivity. Qed.

Example recommend_space_scenario :
  recommend offline_get (Some "key") "A" space_movies space_similarity 2 0 =
    Ok (["B"; "C"], [PLACEHOLDER; PLACEHOLDER], 2).
Proof. reflexivity. Qed.

(** ** Fallible computations over columns *)

Lemma mapM_Ok {A B} (f : A → result B) (l : list A) (k : list B) :
  Forall2 (λ x y, f x = Ok y) l k → mapM f l = Ok k.
Proof.
  induction 1 as [|x y l k Hx _ IH]; simpl; [done|]. by rewrite Hx, IH.
Qed.

Lemma mapM_fmap_Ok {A B C} (f : B → result C) (g : A → B) (h : A → C)
    (l : list A) :
  (∀ x, x ∈ l → f (g x) = Ok (h x)) → mapM f (g <$> l) = Ok (h <$> l).
Proof.
  intros Hf. apply mapM_Ok, Forall2_fmap, Forall_Forall2_diag, Forall_forall.
  exact Hf.
Qed.

Lemma mapM_Ok_inv {A B} (f : A → result B) (l : list A) (k : list B) (x : A) :
  mapM f l = Ok k → x ∈ l → ∃ y, f x = Ok y.
Proof.
  revert k. induction l as [|a l IH]; intros k Hk Hx; [by apply elem_of_nil in Hx|].
  simpl in Hk. destruct (f a) as [b|e] eqn:Ha; [|done]. simpl in Hk.
  destruct (mapM f l) as [k'|e] eqn:Hl; [|done].
  apply elem_of_cons in Hx as [->|Hx]; eauto.
Qed.

Lemma mapM_raises {A B} (f : A → result B) (l : list A) (x : A) :
  x ∈ l → raises (f x) → raises (mapM f l).
Proof.
  intros Hx [e He]. destruct (mapM f l) as [k|e'] eqn:Hl; [|by exists e'].
  destruct (mapM_Ok_inv f l k x Hl Hx) as [y Hy]. congruence.
Qed.

Lemma bind_raises {A B} (c : result A) (f : A → result B) :
  raises c → raises (c ≫= f).
Proof. by intros [e ->]; exists e. Qed.

Lemma string_app_assoc (a b c : string) : (a +:+ b) +:+ c = a +:+ (b +:+ c).
Proof.
  induction a as [|x a IH]; [done|].
  change (String x ((a +:+ b) +:+ c) = String x (a +:+ (b +:+ c))).
  by rewrite IH.
Qed.

(** ** The tag builder *)

Lemma parse_names (c : cell) (ns : list string) :
  names_of c ns → parse c = Ok (PyStr <$> ns).
Proof.
  intros (items & -> & Hns). unfold parse. simpl.
  apply mapM_Ok, Forall2_fmap_r. eapply Forall2_impl; [exact Hns|].
  intros item n (entries & -> & Hn). simpl. by rewrite Hn.
Qed.

Lemma parse_cast_names (c : cell) (ns : list string) :
  top_billed_of c ns → parse_cast c = Ok (PyStr <$> ns).
Proof.
  intros (items & -> & Hns). unfold parse_cast. simpl.
  apply mapM_Ok, Forall2_fmap_r. eapply Forall2_impl; [exact Hns|].
  intros item n (entries & -> & Hn). simpl. by rewrite Hn.
Qed.

Lemma director_loop_spec (items : list pyval) (d : option string) :
  director_in items d → director_loop items = Ok (PyStr <$> option_list d).
Proof.
  induction 1 as [|entries rest n Hjob Hname|entries job rest d Hjob Hne _ IH];
    simpl; [done| |].
  - rewrite Hjob. simpl. by rewrite Hname.
  - rewrite Hjob. simpl. by rewrite Hne.
Qed.

Lemma parse_director_spec (c : cell) (d : option string) :
  director_of c d → parse_director c = Ok (PyStr <$> option_list d).
Proof.
  intros (items & -> & Hd). unfold parse_director. simpl.
  by apply director_loop_spec.
Qed.

Lemma str_join_strings (ns : list string) :
  str_join (PyStr <$> ns) = Ok (String.concat " " ns).
Proof.
  unfold str_join. rewrite (mapM_Ok as_str (PyStr <$> ns) ns); [done|].
  apply Forall2_fmap_l, Forall_Forall2_diag, Forall_forall. done.
Qed.

Lemma literal_eval_unreadable (c : cell) : unreadable c → raises (literal_eval c).
Proof. intros [-> | [-> | ->]]; by eexists. Qed.

Lemma parse_unreadable (c : cell) : unreadable c → raises (parse c).
Proof. intros H. by apply bind_raises, literal_eval_unreadable. Qed.

Lemma parse_cast_unreadable (c : cell) : unreadable c → raises (parse_cast c).
Proof. intros H. by apply bind_raises, literal_eval_unreadable. Qed.

Lemma parse_director_unreadable (c : cell) :
  unreadable c → raises (parse_director c).
Proof. intros H. by apply bind_raises, literal_eval_unreadable. Qed.

Section tag_facts.
Variable str_lower : string → string.

Local Abbreviation build_tags := (build_tags str_lower).

Lemma tags_col_spec (merged : list MergedRow) (fs : list RowFields) :
  length merged = length fs →
  zip_with (λ r t, {| id := row_id r; title := row_title r;
                      tags := str_lower t |}) merged
    (add_col (add_str (add_col (add_str (add_col (add_str (add_col (add_str
       (fillna (overview <$> merged)) " ")
       ((λ f, String.concat " " (genre_names f)) <$> fs)) " ")
       ((λ f, String.concat " " (keyword_names f)) <$> fs)) " ")
       ((λ f, String.concat " " (top_cast f)) <$> fs)) " ")
       ((λ f, String.concat " " (option_list (director f))) <$> fs)) =
  zip_with (λ r f, {| id := row_id r; title := row_title r;
                      tags := str_lower (spec_tag r f) |}) merged fs.
Proof.
  unfold add_col, add_str, fillna. revert fs.
  induction merged as [|r merged IH]; intros [|f fs] Hlen; simpl in *; try done.
  f_equal; [|apply IH; lia].
  unfold spec_tag. cbn [String.concat]. by rewrite !string_app_assoc.
Qed.

(** C9: for a batch whose structured cells are literals of record lists,
    the tag builder returns one record per row, in row order, that keeps the
    row's id and title and whose tag is the lowercase of: the overview (the
    empty string when it is missing), the genre names, the keyword names,
    the names of the first three cast records in source order, and the name
    of the first crew record whose job is "Director" (nothing when there is
    none), each list joined by single spaces and the five parts separated by
    single spaces. *)
Theorem build_tags_spec (merged : list MergedRow) (fs : list RowFields) :
  Forall2 describes merged fs →
  build_tags merged =
    Ok (zip_with (λ r f, {| id := row_id r; title := row_title r;
                            tags := str_lower (spec_tag r f) |}) merged fs).
Proof.
  intros Hfs. unfold build_tags.
  rewrite (mapM_Ok parse (genres <$> merged)
             ((λ f, PyStr <$> genre_names f) <$> fs)); cycle 1.
  { apply Forall2_fmap. eapply Forall2_impl; [exact Hfs|].
    intros r f (Hg & _). by apply parse_names. }
  rewrite (mapM_Ok parse (keywords <$> merged)
             ((λ f, PyStr <$> keyword_names f) <$> fs)); cycle 1.
  { apply Forall2_fmap. eapply Forall2_impl; [exact Hfs|].
    intros r f (_ & Hk & _). by apply parse_names. }
  rewrite (mapM_Ok parse_cast (cast <$> merged)
             ((λ f, PyStr <$> top_cast f) <$> fs)); cycle 1.
  { apply Forall2_fmap. eapply Forall2_impl; [exact Hfs|].
    intros r f (_ & _ & Hc & _). by apply parse_cast_names. }
  rewrite (mapM_Ok parse_director (crew <$> merged)
             ((λ f, PyStr <$> option_list (director f)) <$> fs)); cycle 1.
  { apply Forall2_fmap. eapply Forall2_impl; [exact Hfs|].
    intros r f (_ & _ & _ & Hd). by apply parse_director_spec. }
  simpl.
  rewrite (mapM_fmap_Ok str_join (λ f, PyStr <$> genre_names f)
             (λ f, String.concat " " (genre_names f)))
    by (intros; apply str_join_strings).
  rewrite (mapM_fmap_Ok str_join (λ f, PyStr <$> keyword_names f)
             (λ f, String.concat " " (keyword_names f)))
    by (intros; apply str_join_strings).
  rewrite (mapM_fmap_Ok str_join (λ f, PyStr <$> top_cast f)
             (λ f, String.concat " " (top_cast f)))
    by (intros; apply str_join_strings).
  rewrite (mapM_fmap_Ok str_join (λ f, PyStr <$> option_list (director f))
             (λ f, String.concat " " (option_list (director f))))
    by (intros; apply str_join_strings).
  simpl. f_equal. apply tags_col_spec. by eapply Forall2_length.
Qed.

(** A row with a missing or malformed structured cell never yields an index:
    the exception of [parse] leaves [build_tags]. *)
Lemma build_tags_broken (merged : list MergedRow) (r : MergedRow) :
  r ∈ merged → broken_row r → raises (build_tags merged).
Proof.
  intros Hr Hbroken. unfold build_tags.
  destruct (mapM parse (genres <$> merged)) as [gs|e] eqn:Hg; [|by eexists].
  destruct (mapM parse (keywords <$> merged)) as [ks|e] eqn:Hk; [|by eexists].
  destruct (mapM parse_cast (cast <$> merged)) as [cs|e] eqn:Hc; [|by eexists].
  destruct (mapM parse_director (crew <$> merged)) as [ds|e] eqn:Hd; [|by eexists].
  exfalso. destruct Hbroken as [H|[H|[H|H]]].
  - destruct (mapM_Ok_inv _ _ _ (genres r) Hg) as [y Hy].
    { apply list_elem_of_fmap. eauto. }
    apply parse_unreadable in H as [e He]. congruence.
  - destruct (mapM_Ok_inv _ _ _ (keywords r) Hk) as [y Hy].
    { apply list_elem_of_fmap. eauto. }
    apply parse_unreadable in H as [e He]. congruence.
  - destruct (mapM_Ok_inv _ _ _ (cast r) Hc) as [y Hy].
    { apply list_elem_of_fmap. eauto. }
    apply parse_cast_unreadable in H as [e He]. congruence.
  - destruct (mapM_Ok_inv _ _ _ (crew r) Hd) as [y Hy].
    { apply list_elem_of_fmap. eauto. }
    apply parse_director_unreadable in H as [e He]. congruence.
Qed.

End tag_facts.

(** ** The vectorizer and the engine build *)

Lemma remove_dups_nil {A} `{EqDecision A} (l : list A) :
  remove_dups l = [] ↔ l = [].
Proof.
  split; [|by intros ->]. destruct l as [|x l]; [done|]. intros H.
  assert (x ∈ remove_dups (x :: l)) as Hx by (apply elem_of_remove_dups; left).
  rewrite H in Hx. by apply elem_of_nil in Hx.
Qed.

Section artifacts_facts.
Variable str_lower : string → string.
Variable analyze : string → list string.
Variable cosine_similarity : list (list Z) → list (list Q).

Local Abbreviation build_tags := (build_tags str_lower).
Local Abbreviation corpus_terms := (corpus_terms analyze).
Local Abbreviation vocabulary := (vocabulary analyze).
Local Abbreviation fit_transform := (fit_transform analyze).
Local Abbreviation load_artifacts :=
  (load_artifacts str_lower analyze cosine_similarity).

Lemma corpus_terms_nil (docs : list string) :
  corpus_terms docs = [] ↔ ∀ doc, doc ∈ docs → analyze doc = [].
Proof.
  unfold corpus_terms. induction docs as [|doc docs IH]; simpl.
  - split; [|done]. by intros _ doc ?%elem_of_nil.
  - rewrite app_nil, IH. split.
    + intros [Hdoc Hdocs] d [->|Hd]%elem_of_cons; auto.
    + intros H. split; [apply H; left|]. intros d Hd. apply H. by right.
Qed.

Lemma vocabulary_nil (docs : list string) :
  vocabulary docs = [] ↔ corpus_terms docs = [].
Proof.
  unfold vocabulary. split.
  - intros [Hn|Hs]%take_nil_inv; [done|].
    apply remove_dups_nil, Permutation_nil_r. rewrite <- Hs.
    symmetry. apply sorted_perm.
  - intros ->. reflexivity.
Qed.

(** C8: the vectorizer fails with [EmptyCorpusError] exactly when it is
    given no tag at all or the vocabulary it produces is empty, which is the
    case exactly when analysis leaves no term in any tag; it fails in no
    other way, and the failure leaves [load_artifacts]: no engine is built. *)
Theorem fit_transform_fails_iff_empty (docs : list string) :
  (fit_transform docs = Raise EmptyCorpusError ↔
     docs = [] ∨ vocabulary docs = []) ∧
  (∀ e, fit_transform docs = Raise e → e = EmptyCorpusError) ∧
  (vocabulary docs = [] ↔ ∀ doc, doc ∈ docs → analyze doc = []) ∧
  (∀ merged movies,
     build_tags merged = Ok movies → tags <$> movies = docs →
     fit_transform docs = Raise EmptyCorpusError →
     load_artifacts merged = Raise EmptyCorpusError).
Proof.
  split_and!.
  - unfold fit_transform. split.
    + destruct (vocabulary docs); [by right|done].
    + intros [->|Hv]; [done|]. by rewrite Hv.
  - unfold fit_transform. intros e. destruct (vocabulary docs); congruence.
  - by rewrite vocabulary_nil, corpus_terms_nil.
  - intros merged movies Hm <- Hfit. unfold load_artifacts.
    rewrite Hm. simpl. by rewrite Hfit.
Qed.

(** X15: a single missing or malformed structured cell, in any row and in
    any of the four columns, makes [load_artifacts] raise: no index and no
    matrix are built for the batch. *)
Lemma load_artifacts_broken (merged : list MergedRow) (r : MergedRow) :
  r ∈ merged → broken_row r → raises (load_artifacts merged).
Proof.
  intros Hr Hbroken. apply bind_raises. by eapply build_tags_broken.
Qed.

(** C3 on the code: a batch of two rows, the second with an empty genres
    cell.  [parse] raises on that cell and the exception leaves
    [load_artifacts]: no row of the batch gets a tag. *)
Theorem load_artifacts_aborts_on_missing_genres :
  broken_row sparse_row ∧
  build_tags [avatar_row; sparse_row] = Raise malformed_node ∧
  load_artifacts [avatar_row; sparse_row] = Raise malformed_node.
Proof. split; [by left; left|]. split; reflexivity. Qed.

End artifacts_facts.

(** ** The tag builder and the vectorizer on concrete rows *)

Lemma avatar_described : Forall2 describes [avatar_row] [avatar_fields].
Proof.
  repeat constructor.
  - eexists. split; [reflexivity|]. repeat constructor; by eexists.
  - eexists. split; [reflexivity|]. repeat constructor; by eexists.
  - eexists. split; [reflexivity|]. repeat constructor; by eexists.
  - eexists. split; [reflexivity|].
    eapply director_later; [reflexivity|reflexivity|].
    eapply director_here; reflexivity.
Defined.

Lemma build_tags_spec_witness :
  Forall2 describes [avatar_row] [avatar_fields] ∧
  build_tags ascii_lower [avatar_row] =
    Ok [ {| id := 19995; title := "Avatar";
            tags := "a paraplegic marine action adventure future sam worthington zoe saldana sigourney weaver james cameron" |} ].
Proof.
  split; [exact avatar_described|].
  exact (build_tags_spec ascii_lower [avatar_row] [avatar_fields] avatar_described).
Defined.

Example fit_transform_space_corpus :
  fit_transform toy_analyze ["space war robot"; "space war alien"; "romance drama"] =
    Ok [ [1; 1; 1; 0; 0; 0]; [1; 1; 0; 1; 0; 0]; [0; 0; 0; 0; 1; 1] ]%Z.
Proof. vm_compute. reflexivity. Qed.

Example fit_transform_stop_words_only :
  fit_transform toy_analyze ["the and"; "of"] = Raise EmptyCorpusError.
Proof. vm_compute. reflexivity. Qed.

Example fit_transform_no_tags :
  fit_transform toy_analyze [] = Raise EmptyCorpusError.
Proof. vm_compute. reflexivity. Qed.

(** ** More on the poster lookup and the query *)

Lemma top_slice_eq {A} (l : list A) (k : Z) :
  (0 ≤ k)%Z → py_slice l 1 (k + 1) = take (Z.to_nat k) (drop 1 l).
Proof.
  intros Hk. destruct l as [|h rest].
  - unfold py_slice. simpl. by rewrite !take_nil.
  - unfold py_slice. cbv zeta.
    assert (Z.to_nat (adjust_index (Z.of_nat (length (h :: rest))) 1) = 1) as ->.
    { unfold adjust_index. simpl length. case_match; lia. }
    simpl drop. rewrite drop_0.
    destruct (decide (Z.to_nat k ≤ length rest)) as [Hle|Hgt].
    + f_equal. unfold adjust_index. simpl length. repeat case_match; lia.
    + rewrite !take_ge; [done|lia|].
      unfold adjust_index. simpl length. repeat case_match; lia.
Qed.

Lemma Forall2_functional {A B} (R : A → B → Prop) (l : list A) (k1 k2 : list B) :
  (∀ x y1 y2, R x y1 → R x y2 → y1 = y2) →
  Forall2 R l k1 → Forall2 R l k2 → k1 = k2.
Proof.
  intros Hfun H1. revert k2. induction H1 as [|x y l k Hxy _ IH]; intros k2 H2.
  - by apply Forall2_nil_inv_l in H2.
  - apply Forall2_cons_inv_l in H2 as (y' & k' & Hxy' & Hk' & ->).
    f_equal; [by eapply Hfun|by apply IH].
Qed.

Section query_more.
Context {world : Type}.
Variable requests_get : string → world → http_outcome * world.
Variable TMDB_API_KEY : option string.

Local Abbreviation api_key_falsy := (api_key_falsy TMDB_API_KEY).
Local Abbreviation api_key_text := (api_key_text TMDB_API_KEY).
Local Abbreviation fetch_poster := (fetch_poster requests_get TMDB_API_KEY).
Local Abbreviation fetch_all := (fetch_all requests_get TMDB_API_KEY).
Local Abbreviation recommend := (recommend requests_get TMDB_API_KEY).

Lemma poster_of_response_image (r : http_outcome) :
  poster_of_response r ≠ PLACEHOLDER ↔
  ∃ c p, r = Response 200 (PosterPath (Some (String c p))) ∧
         poster_of_response r = TMDB_IMG_BASE +:+ String c p.
Proof.
  split.
  - destruct r as [|status body]; simpl; [done|].
    destruct (Z.eqb_spec status 200) as [->|]; [|done].
    destruct body as [|[[|c p]|]]; try done. intros _. by exists c, p.
  - intros (c & p & -> & _) H. cbv in H. discriminate H.
Qed.

(** X1: [fetch_poster] returns something else than the placeholder exactly
    when the id is not 0, the API key is set and not empty, and the service
    answers the request for that id with status 200 and a non-empty poster
    path; the result is then the image base followed by that path.  A
    failed request, another status, an unreadable body and a missing or
    empty path all give the placeholder. *)
Theorem fetch_poster_image_iff (movie_id : Z) (w : world) :
  (fetch_poster movie_id w).1 ≠ PLACEHOLDER ↔
  movie_id ≠ 0%Z ∧ api_key_falsy = false ∧
  ∃ c p,
    (requests_get ("https://api.themoviedb.org/3/movie/" +:+ pretty movie_id
                   +:+ "?api_key=" +:+ api_key_text) w).1 =
      Response 200 (PosterPath (Some (String c p))) ∧
    (fetch_poster movie_id w).1 = TMDB_IMG_BASE +:+ String c p.
Proof.
  unfold fetch_poster.
  destruct (bool_decide (movie_id = 0%Z)) eqn:Hid; simpl.
  { apply bool_decide_eq_true in Hid. split; [done|]. by intros [? _]. }
  apply bool_decide_eq_false in Hid.
  destruct api_key_falsy eqn:Hkey; simpl.
  { split; [done|]. by intros (_ & ? & _). }
  destruct (requests_get _ w) as [r w1]. simpl.
  rewrite poster_of_response_image. split.
  - intros (c & p & Hr & Hp). split_and!; [done..|]. by exists c, p.
  - intros (_ & _ & c & p & Hr & Hp). by exists c, p.
Qed.

Lemma recommend_rows (movie : string) (movies : list MovieRecord)
    (similarity : list (list Q)) (k : Z) :
  square_for movies similarity →
  ∃ rows, Forall (λ m, m ∈ movies) rows ∧
    ∀ w, recommend movie movies similarity k w =
      Ok (title <$> rows, (fetch_all (id <$> rows) w).1,
          (fetch_all (id <$> rows) w).2).
Proof.
  intros Hsq. destruct (matched_or_not movie movies) as [[idx Hidx]|Hno].
  - destruct (square_for_row _ _ _ _ Hsq Hidx) as (row & Hrow & Hlen).
    destruct (recommend_matched requests_get TMDB_API_KEY movie movies
                similarity k idx row Hidx Hrow Hlen) as (rows & Hrows & Hrec).
    exists rows. split; [|exact Hrec].
    by apply matched_rows_in_index in Hrows as [? _].
  - exists []. split; [constructor|]. intros w. by apply recommend_unmatched.
Qed.

Lemma fetch_all_no_key (ids : list Z) (w : world) :
  api_key_falsy = true →
  fetch_all ids w = (replicate (length ids) PLACEHOLDER, w).
Proof.
  intros Hkey. induction ids as [|i ids IH]; [done|].
  rewrite fetch_all_cons. unfold fetch_poster at 1 2 3.
  rewrite Hkey, orb_true_r. simpl. by rewrite IH.
Qed.

Lemma fetch_all_take (n : nat) (ids : list Z) (w : world) :
  (fetch_all (take n ids) w).1 = take n (fetch_all ids w).1.
Proof.
  revert n w. induction ids as [|i ids IH]; intros n w.
  - by destruct n.
  - destruct n as [|n]; [done|].
    change (take (S n) (i :: ids)) with (i :: take n ids).
    rewrite !fetch_all_cons. simpl. by rewrite IH.
Qed.

(** X2: when the API key is unset or empty, [recommend] makes no request at
    all: the state of the service is unchanged and every poster is the
    placeholder, one per recommended name. *)
Theorem recommend_without_key (movie : string) (movies : list MovieRecord)
    (similarity : list (list Q)) (k : Z) (w : world) :
  api_key_falsy = true →
  square_for movies similarity →
  ∃ names,
    recommend movie movies similarity k w =
      Ok (names, replicate (length names) PLACEHOLDER, w).
Proof.
  intros Hkey Hsq.
  destruct (recommend_rows movie movies similarity k Hsq) as (rows & _ & Hrec).
  exists (title <$> rows).
  by rewrite Hrec, fetch_all_no_key, !length_fmap.
Qed.

(** X3: the [try] of [recommend] covers the title lookup only.  When the
    title matches a row for which the matrix has no row, the exception of
    [similarity[idx]] leaves [recommend]: it raises [IndexError] and does
    not return the empty result. *)
Theorem recommend_missing_row_raises (movie : string)
    (movies : list MovieRecord) (similarity : list (list Q)) (k : Z) (w : world)
    (idx : nat) :
  matches movie movies idx →
  length similarity ≤ idx →
  recommend movie movies similarity k w = Raise IndexError.
Proof.
  intros Hidx Hshort. unfold recommend.
  rewrite (matches_first_label _ _ _ Hidx).
  by rewrite (lookup_ge_None_2 similarity idx Hshort).
Qed.

(** X4: asking for more never reorders what was returned for less.  For
    [0 <= k <= k'] and the same state of the service, the names and the
    posters returned for [k] are the first [k] of those returned for [k']. *)
Theorem recommend_prefix (movie : string) (movies : list MovieRecord)
    (similarity : list (list Q)) (k k' : Z) (w : world) :
  square_for movies similarity →
  (0 ≤ k ≤ k')%Z →
  ∃ names posters w1 names' posters' w2,
    recommend movie movies similarity k w = Ok (names, posters, w1) ∧
    recommend movie movies similarity k' w = Ok (names', posters', w2) ∧
    names = take (Z.to_nat k) names' ∧
    posters = take (Z.to_nat k) posters'.
Proof.
  intros Hsq Hk.
  destruct (matched_or_not movie movies) as [[idx Hidx]|Hno].
  - destruct (square_for_row _ _ _ _ Hsq Hidx) as (row & Hrow & Hlen).
    destruct (recommend_matched requests_get TMDB_API_KEY movie movies
                similarity k idx row Hidx Hrow Hlen) as (rows & Hrows & Hrec).
    destruct (recommend_matched requests_get TMDB_API_KEY movie movies
                similarity k' idx row Hidx Hrow Hlen) as (rows' & Hrows' & Hrec').
    eexists _, _, _, _, _, _. split; [apply Hrec|]. split; [apply Hrec'|].
    rewrite top_slice_eq in Hrows, Hrows' by lia.
    apply (Forall2_take _ _ _ (Z.to_nat k)) in Hrows'.
    rewrite take_take, Nat.min_l in Hrows' by lia.
    assert (rows = take (Z.to_nat k) rows') as ->.
    { eapply Forall2_functional; [|exact Hrows|exact Hrows'].
      intros x y1 y2. simpl. congruence. }
    by rewrite !fmap_take, fetch_all_take.
  - eexists _, _, _, _, _, _.
    split; [by apply recommend_unmatched|].
    split; [by apply recommend_unmatched|].
    by rewrite !take_nil.
Qed.

(** X6: what [recommend] leaves out is the head of the ranking, whichever
    row that is: for every [k], no returned entry is the top-ranked row. *)
Theorem recommend_never_returns_top_ranked (movie : string)
    (movies : list MovieRecord) (similarity : list (list Q)) (k : Z) (w : world)
    (idx : nat) (row : list Q) (top : nat * Q) :
  matches movie movies idx →
  similarity !! idx = Some row →
  length row = length movies →
  head (distances row) = Some top →
  ∃ names posters w',
    recommend movie movies similarity k w = Ok (names, posters, w') ∧
    Forall2 (λ p name, title <$> movies !! p.1 = Some name)
      (py_slice (distances row) 1 (k + 1)) names ∧
    Forall (λ p, p.1 ≠ top.1) (py_slice (distances row) 1 (k + 1)).
Proof.
  intros Hidx Hrow Hlen Htop.
  destruct (recommend_matched requests_get TMDB_API_KEY movie movies
              similarity k idx row Hidx Hrow Hlen) as (rows & Hrows & Hrec).
  eexists _, _, _. split; [apply Hrec|].
  split; [by apply matched_rows_in_index in Hrows as [_ ?]|].
  pose proof (distances_indices_NoDup row) as Hnodup.
  destruct (distances row) as [|h rest]; [done|].
  injection Htop as ->. simpl in Hnodup.
  apply NoDup_cons in Hnodup as [Hfresh _].
  apply Forall_forall. intros p Hp%py_slice_tail Heq. apply Hfresh.
  apply list_elem_of_fmap. by exists p.
Qed.

End query_more.

(** ** The button handler *)

Lemma lookup_movie_id_matched (name : string) (movies : list MovieRecord)
    (idx : nat) :
  matches name movies idx →
  lookup_movie_id name movies = Raise (KeyError "movie_id").
Proof.
  intros Hidx. unfold lookup_movie_id.
  rewrite (matches_first_label _ _ _ Hidx). simpl.
  destruct Hidx as [(m & Hm & _) _]. unfold iloc. by rewrite Hm.
Qed.

Lemma lookup_movie_id_unmatched (name : string) (movies : list MovieRecord) :
  (∀ m, m ∈ movies → title m ≠ name) →
  lookup_movie_id name movies = Raise IndexError.
Proof.
  intros Hno%first_label_unmatched. unfold lookup_movie_id. by rewrite Hno.
Qed.

(** X8: the index has no column [movie_id], so the [try] block of the card
    loop never finds an id: for every name and every index it ends in the
    [except] branch, and the card is rendered without local details. *)
Theorem card_movie_id_none (name : string) (movies : list MovieRecord) :
  card_movie_id name movies = None.
Proof.
  unfold card_movie_id.
  destruct (matched_or_not name movies) as [[idx Hidx]|Hno].
  - by rewrite (lookup_movie_id_matched _ _ _ Hidx).
  - by rewrite (lookup_movie_id_unmatched _ _ Hno).
Qed.

Section handler_facts.
Context {world : Type}.
Variable requests_get : string → world → http_outcome * world.
Variable TMDB_API_KEY : option string.
Context {page : Type}.
Variable render : list string → list string → pyval → world → result page.

(** X7: on the engine that [load_artifacts] builds, the button handler
    never reaches the rendering.  After [recommend] has returned, the lookup
    of [sel_id] reads the column [movie_id], which the index does not have:
    the handler raises [KeyError] for every title of the index (and
    [IndexError] for a title that is not in it). *)
Theorem show_recommendation_raises (selected_movie : string)
    (movies : list MovieRecord) (similarity : list (list Q)) (w : world) :
  square_for movies similarity →
  ((∃ m, m ∈ movies ∧ title m = selected_movie) →
     show_recommendation requests_get TMDB_API_KEY render selected_movie
       movies similarity w = Raise (KeyError "movie_id")) ∧
  ((∀ m, m ∈ movies → title m ≠ selected_movie) →
     show_recommendation requests_get TMDB_API_KEY render selected_movie
       movies similarity w = Raise IndexError).
Proof.
  intros Hsq. unfold show_recommendation.
  destruct (recommend_rows requests_get TMDB_API_KEY selected_movie movies
              similarity 5 Hsq) as (rows & _ & ->).
  simpl. split.
  - intros (m & Hm & Ht).
    destruct (matched_or_not selected_movie movies) as [[idx Hidx]|Hno].
    + by rewrite (lookup_movie_id_matched _ _ _ Hidx).
    + by destruct (Hno m Hm).
  - intros Hno. by rewrite (lookup_movie_id_unmatched _ _ Hno).
Qed.

End handler_facts.

(** ** More on the tag builder *)

Lemma mapM_length {A B} (f : A → result B) (l : list A) (k : list B) :
  mapM f l = Ok k → length k = length l.
Proof.
  revert k. induction l as [|x l IH]; intros k; simpl; [by intros [= <-]|].
  destruct (f x) as [y|e]; [|done]. simpl.
  destruct (mapM f l) as [k'|e]; [|done]. simpl.
  intros [= <-]. simpl. by rewrite (IH k').
Qed.

Lemma mapM_take {A B} (f : A → result B) (l : list A) (k : list B) (n : nat) :
  mapM f l = Ok k → mapM f (take n l) = Ok (take n k).
Proof.
  revert k n. induction l as [|x l IH]; intros k n; simpl.
  - intros [= <-]. by destruct n.
  - destruct (f x) as [y|e] eqn:Hx; [|done]. simpl.
    destruct (mapM f l) as [k'|e]; [|done]. simpl.
    intros [= <-]. destruct n as [|n]; [done|]. simpl.
    by rewrite Hx, (IH k' n).
Qed.

Lemma mapM_app_raise {A B} (f : A → result B) (pre post : list A) (x : A)
    (e : exn) :
  Forall (λ a, ∃ b, f a = Ok b) pre → f x = Raise e →
  mapM f (pre ++ x :: post) = Raise e.
Proof.
  intros Hpre Hx. induction Hpre as [|a pre [b Ha] _ IH]; simpl.
  - by rewrite Hx.
  - by rewrite Ha, IH.
Qed.

(** X9: [parse_cast] never returns more than three names, whatever the
    cell holds. *)
Theorem parse_cast_at_most_three (c : cell) (names : list pyval) :
  parse_cast c = Ok names → length names ≤ 3.
Proof.
  unfold parse_cast. destruct c as [| | |v]; try done. simpl.
  destruct v as [| | |s|items|entries]; try done; simpl.
  - destruct (String.list_ascii_of_string (String.substring 0 3 s)); simpl.
    + intros [= <-]. simpl. lia.
    + done.
  - intros Hnames%mapM_length. rewrite Hnames, length_take. lia.
Qed.

(** X10: on a list literal, [parse_cast] is [parse] cut after the third
    record: whenever [parse] reads the whole list, [parse_cast] returns its
    first three names. *)
Theorem parse_cast_prefix_of_parse (items : list pyval) (names : list pyval) :
  parse (Literal (PyList items)) = Ok names →
  parse_cast (Literal (PyList items)) = Ok (take 3 names).
Proof. unfold parse, parse_cast. simpl. apply mapM_take. Qed.

Lemma director_loop_at_most_one (items : list pyval) (names : list pyval) :
  director_loop items = Ok names → length names ≤ 1.
Proof.
  induction items as [|i items IH]; simpl; [intros [= <-]; simpl; lia|].
  destruct (getitem i "job") as [job|e]; [|done]. simpl.
  destruct (py_eq_str job "Director"); [|exact IH].
  destruct (getitem i "name") as [n|e]; [|done]. simpl.
  intros [= <-]. simpl. lia.
Qed.

(** X11: [parse_director] returns at most one name, whatever the cell
    holds: the loop returns at the first director. *)
Theorem parse_director_at_most_one (c : cell) (names : list pyval) :
  parse_director c = Ok names → length names ≤ 1.
Proof.
  unfold parse_director. destruct c as [| | |v]; try done. simpl.
  destruct (iterate v) as [items|e]; [|done]. simpl.
  apply director_loop_at_most_one.
Qed.

(** X12: a record without a ["name"] makes [parse] raise [KeyError]: the
    names read from the records before it are lost. *)
Theorem parse_missing_name_raises (pre post : list pyval)
    (entries : list (string * pyval)) :
  Forall (λ i, ∃ v, getitem i "name" = Ok v) pre →
  dict_get "name" entries = None →
  parse (Literal (PyList (pre ++ PyDict entries :: post))) =
    Raise (KeyError "name").
Proof.
  intros Hpre Hname. unfold parse. simpl.
  apply mapM_app_raise; [done|]. simpl. by rewrite Hname.
Qed.

Section tag_more.
Variable str_lower : string → string.

Local Abbreviation build_tags := (build_tags str_lower).

(** One more fallible step of the batch: when it raises, neither the batch
    nor one of its two parts returns. *)
Local Ltac batch_step c :=
  destruct c as [?|?] eqn:?; simpl;
  [|split; [congruence|intros (? & ? & ? & ? & ?); congruence]].

Lemma build_tags_cons (r : MergedRow) (rest : list MergedRow)
    (movies : list MovieRecord) :
  build_tags (r :: rest) = Ok movies ↔
  ∃ m ms, movies = m :: ms ∧
    build_tags [r] = Ok [m] ∧ build_tags rest = Ok ms.
Proof.
  unfold build_tags. rewrite !fmap_cons.
  generalize (genres <$> rest) (keywords <$> rest) (cast <$> rest)
    (crew <$> rest) (overview <$> rest).
  intros G K C D O. unfold add_col, add_str, fillna. simpl.
  batch_step (parse (genres r)).
  batch_step (mapM parse G).
  batch_step (parse (keywords r)).
  batch_step (mapM parse K).
  batch_step (parse_cast (cast r)).
  batch_step (mapM parse_cast C).
  batch_step (parse_director (crew r)).
  batch_step (mapM parse_director D).
  batch_step (str_join a).
  batch_step (mapM str_join a0).
  batch_step (str_join a1).
  batch_step (mapM str_join a2).
  batch_step (str_join a3).
  batch_step (mapM str_join a4).
  batch_step (str_join a5).
  batch_step (mapM str_join a6).
  split.
  - intros [= <-]. by eexists _, _.
  - by intros (m & ms & -> & [= <-] & [= <-]).
Qed.

Lemma build_tags_single (r : MergedRow) (m : MovieRecord) :
  build_tags [r] = Ok [m] → id m = row_id r ∧ title m = row_title r.
Proof.
  unfold build_tags, add_col, add_str, fillna. simpl.
  destruct (parse (genres r)); simpl; [|done].
  destruct (parse (keywords r)); simpl; [|done].
  destruct (parse_cast (cast r)); simpl; [|done].
  destruct (parse_director (crew r)); simpl; [|done].
  destruct (str_join a); simpl; [|done].
  destruct (str_join a0); simpl; [|done].
  destruct (str_join a1); simpl; [|done].
  destruct (str_join a2); simpl; [|done].
  by intros [= <-].
Qed.

Lemma build_tags_Forall2 (merged : list MergedRow) (movies : list MovieRecord) :
  build_tags merged = Ok movies ↔
  Forall2 (λ r m, build_tags [r] = Ok [m]) merged movies.
Proof.
  revert movies. induction merged as [|r rest IH]; intros movies.
  - split.
    + intros [= <-]. constructor.
    + by intros ->%Forall2_nil_inv_l.
  - rewrite build_tags_cons. split.
    + intros (m & ms & -> & Hr & Hrest). constructor; [done|]. by apply IH.
    + intros (m & ms & Hr & Hrest & ->)%Forall2_cons_inv_l.
      exists m, ms. split_and!; [done..|]. by apply IH.
Qed.

Lemma build_tags_rows (merged : list MergedRow) (movies : list MovieRecord) :
  build_tags merged = Ok movies →
  Forall2 (λ r m, id m = row_id r ∧ title m = row_title r) merged movies.
Proof.
  intros H%build_tags_Forall2. eapply Forall2_impl; [exact H|].
  apply build_tags_single.
Qed.

(** X13: the index that the tag builder returns has one record per row of
    the merged frame, in the same order, with the row's id and title: the
    position of a movie in the index is its position in the frame. *)
Theorem build_tags_preserves_rows (merged : list MergedRow)
    (movies : list MovieRecord) :
  build_tags merged = Ok movies →
  length movies = length merged ∧
  id <$> movies = row_id <$> merged ∧
  title <$> movies = row_title <$> merged.
Proof.
  intros H%build_tags_rows.
  split; [symmetry; by eapply Forall2_length|].
  induction H as [|r m merged movies [Hid Ht] _ [IH1 IH2]]; [done|].
  rewrite !fmap_cons. by rewrite Hid, Ht, IH1, IH2.
Qed.

(** X14: a batch is processed row by row.  Although the columns are parsed
    one after the other over the whole frame, the tag builder returns an
    index exactly when it returns one for every row taken alone, and the
    index is then made of those records, in order: a row's tag does not
    depend on the other rows. *)
Theorem build_tags_row_by_row (merged : list MergedRow)
    (movies : list MovieRecord) :
  build_tags merged = Ok movies ↔
  Forall2 (λ r m, build_tags [r] = Ok [m]) merged movies.
Proof. apply build_tags_Forall2. Qed.

End tag_more.

(** ** Local details *)

(** X16: [get_local_details] returns the empty dictionary exactly when no
    row of the file has the requested id. *)
Theorem get_local_details_none_iff (movies_csv : list MovieCsvRow)
    (movie_id : Z) :
  get_local_details movies_csv movie_id = None ↔
  ∀ r, r ∈ movies_csv → csv_id r ≠ movie_id.
Proof.
  unfold get_local_details.
  destruct (filter _ movies_csv) as [|row rows] eqn:Hf.
  - split; [|done]. intros _ r Hr Hid.
    by eapply (filter_nil_not_elem_of _ _ r Hf).
  - split; [done|]. intros Hno.
    assert (row ∈ filter (λ r, csv_id r = movie_id) movies_csv) as Hrow
      by (rewrite Hf; left).
    apply list_elem_of_filter in Hrow as [Hid Hrow]. by destruct (Hno row).
Qed.

Lemma local_genres_parse (c : cell) :
  match parse c with
  | Ok names => local_genres c = names
  | Raise _ => local_genres c = []
  end.
Proof. destruct c; try done. simpl. by destruct (parse (Literal v)). Qed.

(** X17: [get_local_details] reads the first row with the requested id and
    nothing after it; the scalar columns are passed on as they are, and the
    genres never make it fail: they are the names that the comprehension
    yields when it goes through, and the empty list when the cell is
    missing, is not a literal, or holds a record without a name. *)
Theorem get_local_details_first_match (pre post : list MovieCsvRow)
    (row : MovieCsvRow) (movie_id : Z) :
  Forall (λ r, csv_id r ≠ movie_id) pre →
  csv_id row = movie_id →
  ∃ d,
    get_local_details (pre ++ row :: post) movie_id = Some d ∧
    d_overview d = csv_overview row ∧
    d_release_date d = csv_release_date row ∧
    d_vote_average d = csv_vote_average row ∧
    d_vote_count d = csv_vote_count row ∧
    d_runtime d = csv_runtime row ∧
    d_tagline d = csv_tagline row ∧
    (∀ names, parse (csv_genres row) = Ok names → d_genres d = names) ∧
    (raises (parse (csv_genres row)) → d_genres d = []) ∧
    (unreadable (csv_genres row) → d_genres d = []).
Proof.
  intros Hpre Hid. unfold get_local_details.
  assert (filter (λ r, csv_id r = movie_id) pre = []) as Hnil.
  { induction Hpre as [|r pre Hr _ IH]; [done|].
    by rewrite filter_cons_False. }
  rewrite filter_app, Hnil, filter_cons_True by done. simpl.
  eexists. split; [reflexivity|]. simpl. split_and!; try done.
  - intros names Hnames. pose proof (local_genres_parse (csv_genres row)) as H.
    by rewrite Hnames in H.
  - intros [e He]. pose proof (local_genres_parse (csv_genres row)) as H.
    by rewrite He in H.
  - intros [e He]%parse_unreadable.
    pose proof (local_genres_parse (csv_genres row)) as H.
    by rewrite He in H.
Qed.

(** ** The join of the two files *)

Lemma merge_cons (m : MovieCsvRow) (movies : list MovieCsvRow)
    (credits : list CreditsCsvRow) :
  merge (m :: movies) credits =
    (join_rows m <$> filter (λ c, credits_title c = csv_title m) credits)
    ++ merge movies credits.
Proof. reflexivity. Qed.

Lemma merge_elem (movies : list MovieCsvRow) (credits : list CreditsCsvRow)
    (r : MergedRow) :
  r ∈ merge movies credits ↔
  ∃ m c, m ∈ movies ∧ c ∈ credits ∧ credits_title c = csv_title m ∧
         r = join_rows m c.
Proof.
  unfold merge. rewrite list_elem_of_bind. split.
  - intros (m & (c & -> & [Ht Hc]%list_elem_of_filter)%list_elem_of_fmap & Hm).
    by exists m, c.
  - intros (m & c & Hm & Hc & Ht & ->). exists m. split; [|done].
    apply list_elem_of_fmap. exists c. split; [done|].
    by apply list_elem_of_filter.
Qed.


Lemma filter_same_title (t : string) (m : MovieCsvRow)
    (cs : list CreditsCsvRow) :
  filter (λ r, row_title r = t) (join_rows m <$> cs) =
    if decide (csv_title m = t) then join_rows m <$> cs else [].
Proof.
  induction cs as [|c cs IH]; [by case_decide|].
  rewrite fmap_cons, filter_cons, IH. simpl. by repeat case_decide.
Qed.

(** X19: titles that occur more than once fan out.  The number of merged
    rows with a given title is the number of movie rows with that title
    times the number of credits rows with it. *)
Theorem merge_fan_out (movies : list MovieCsvRow)
    (credits : list CreditsCsvRow) (t : string) :
  length (filter (λ r, row_title r = t) (merge movies credits)) =
    length (filter (λ m, csv_title m = t) movies)
    * length (filter (λ c, credits_title c = t) credits).
Proof.
  induction movies as [|m movies IH]; [done|].
  rewrite merge_cons, filter_app, length_app, IH, filter_same_title, filter_cons.
  case_decide as Ht; simpl.
  - rewrite length_fmap. by rewrite Ht.
  - done.
Qed.

(** X20: every record of the index comes from both files.  When the tag
    builder returns an index for the merged frame, the index has one record
    per merged row, and each record carries the id of a movie row and the
    title that this movie row shares with a credits row. *)
Theorem index_rows_from_both_files (str_lower : string → string)
    (movies : list MovieCsvRow) (credits : list CreditsCsvRow)
    (index : list MovieRecord) :
  build_tags str_lower (merge movies credits) = Ok index →
  length index = length (merge movies credits) ∧
  ∀ rec, rec ∈ index →
    ∃ m c, m ∈ movies ∧ c ∈ credits ∧
      csv_title m = title rec ∧ credits_title c = title rec ∧
      csv_id m = id rec.
Proof.
  intros Hrows%build_tags_rows.
  split; [symmetry; by eapply Forall2_length|].
  intros rec [i Hrec]%list_elem_of_lookup_1.
  destruct (Forall2_lookup_r _ _ _ _ _ Hrows Hrec) as (r & Hr & Hid & Ht).
  apply list_elem_of_lookup_2, merge_elem in Hr
    as (m & c & Hm & Hc & Htitle & ->).
  exists m, c. simpl in *. split_and!; congruence.
Qed.

(** ** The further properties on concrete inputs *)

Lemma twin_matches_B : matches "B" twin_movies 1.
Proof.
  split; [by eexists|]. intros [|j] m Hj; [by intros [= <-]|lia].
Defined.

Lemma twin_square : square_for twin_movies twin_similarity.
Proof. split; [reflexivity|]. repeat constructor. Defined.

Lemma space_row_A_best :
  ∀ j s, [1; 2 # 3; 0]%Q !! j = Some s → j ≠ 0 →
    (s < 1)%Q ∨ ((s == 1)%Q ∧ 0 < j).
Proof.
  intros [|[|[|j]]] s Hj Hne; simpl in Hj; try done;
    injection Hj as <-; left; reflexivity.
Defined.

Lemma recommend_without_key_witness :
  api_key_falsy None = true ∧
  square_for space_movies space_similarity ∧
  ∃ names,
    recommend offline_get None "A" space_movies space_similarity 2 0 =
      Ok (names, replicate (length names) PLACEHOLDER, 0).
Proof.
  split; [reflexivity|]. split; [exact space_square|].
  exact (recommend_without_key offline_get None "A" space_movies
           space_similarity 2 0 eq_refl space_square).
Defined.

Lemma recommend_missing_row_raises_witness :
  matches "A" space_movies 0 ∧
  length ([] : list (list Q)) ≤ 0 ∧
  recommend offline_get (Some "key") "A" space_movies [] 5 0 = Raise IndexError.
Proof.
  split; [exact space_matches_A|]. split; [reflexivity|].
  exact (recommend_missing_row_raises offline_get (Some "key") "A" space_movies
           [] 5 0 0 space_matches_A (le_n 0)).
Defined.

Lemma recommend_prefix_witness :
  square_for space_movies space_similarity ∧
  (0 ≤ 1 ≤ 2)%Z ∧
  ∃ names names',
    (∃ posters w1,
       recommend online_get (Some "key") "A" space_movies space_similarity 1 0 =
         Ok (names, posters, w1)) ∧
    (∃ posters' w2,
       recommend online_get (Some "key") "A" space_movies space_similarity 2 0 =
         Ok (names', posters', w2)) ∧
    names = take 1 names'.
Proof.
  split; [exact space_square|]. split; [lia|].
  destruct (recommend_prefix online_get (Some "key") "A" space_movies
              space_similarity 1 2 0 space_square)
    as (names & posters & w1 & names' & posters' & w2 & H1 & H2 & Hn & _);
    [lia|].
  exists names, names'. split; [by exists posters, w1|].
  split; [by exists posters', w2|]. exact Hn.
Defined.

Lemma recommend_excludes_query_when_first_witness :
  matches "A" space_movies 0 ∧
  space_similarity !! 0 = Some [1; 2 # 3; 0]%Q ∧
  Forall (λ p : nat * Q, p.1 ≠ 0)
    (py_slice (distances [1; 2 # 3; 0]%Q) 1 (5 + 1)).
Proof.
  split; [exact space_matches_A|]. split; [reflexivity|].
  destruct (recommend_excludes_query_when_first offline_get (Some "key") "A"
              space_movies space_similarity 5 0 0 [1; 2 # 3; 0]%Q 1%Q
              space_matches_A eq_refl eq_refl eq_refl space_row_A_best)
    as (_ & _ & _ & _ & _ & H).
  exact H.
Defined.

Lemma recommend_never_returns_top_ranked_witness :
  matches "B" twin_movies 1 ∧
  head (distances [1; 1]%Q) = Some (0, 1%Q) ∧
  Forall (λ p : nat * Q, p.1 ≠ 0) (py_slice (distances [1; 1]%Q) 1 (1 + 1)).
Proof.
  split; [exact twin_matches_B|]. split; [reflexivity|].
  destruct (recommend_never_returns_top_ranked offline_get (Some "key") "B"
              twin_movies twin_similarity 1 0 1 [1; 1]%Q (0, 1%Q)
              twin_matches_B eq_refl eq_refl eq_refl)
    as (_ & _ & _ & _ & _ & H).
  exact H.
Defined.

Lemma show_recommendation_raises_witness :
  square_for space_movies space_similarity ∧
  show_recommendation offline_get (Some "key")
    (λ _ _ _ _, Ok tt) "A" space_movies space_similarity 0 =
    Raise (KeyError "movie_id").
Proof.
  split; [exact space_square|].
  apply (show_recommendation_raises offline_get (Some "key")
           (λ _ _ _ _, Ok tt) "A" space_movies space_similarity 0 space_square).
  eexists. split; [left|reflexivity].
Defined.

Lemma parse_cast_at_most_three_witness :
  parse_cast long_cast =
    Ok [PyStr "Sam Worthington"; PyStr "Zoe Saldana"; PyStr "Sigourney Weaver"] ∧
  3 ≤ 3.
Proof.
  split; [reflexivity|].
  exact (parse_cast_at_most_three long_cast _ eq_refl).
Defined.

Lemma parse_cast_prefix_of_parse_witness :
  parse (cast avatar_row) =
    Ok [PyStr "Sam Worthington"; PyStr "Zoe Saldana"; PyStr "Sigourney Weaver";
        PyStr "Stephen Lang"] ∧
  parse_cast (cast avatar_row) =
    Ok [PyStr "Sam Worthington"; PyStr "Zoe Saldana"; PyStr "Sigourney Weaver"].
Proof.
  split; [reflexivity|].
  exact (parse_cast_prefix_of_parse
           [named 1 "Sam Worthington"; named 2 "Zoe Saldana";
            named 3 "Sigourney Weaver"; named 4 "Stephen Lang"]
           [PyStr "Sam Worthington"; PyStr "Zoe Saldana";
            PyStr "Sigourney Weaver"; PyStr "Stephen Lang"] eq_refl).
Defined.

Lemma parse_director_at_most_one_witness :
  parse_director (crew avatar_row) = Ok [PyStr "James Cameron"] ∧ 1 ≤ 1.
Proof.
  split; [reflexivity|].
  exact (parse_director_at_most_one (crew avatar_row) _ eq_refl).
Defined.

Lemma parse_missing_name_raises_witness :
  Forall (λ i, ∃ v, getitem i "name" = Ok v)
    [named 1 "Sam Worthington"; named 2 "Zoe Saldana"; named 3 "Sigourney Weaver"] ∧
  dict_get "name" [("id", PyInt 4)] = None ∧
  parse long_cast = Raise (KeyError "name").
Proof.
  assert (Forall (λ i, ∃ v, getitem i "name" = Ok v)
            [named 1 "Sam Worthington"; named 2 "Zoe Saldana";
             named 3 "Sigourney Weaver"]) as Hpre
    by (repeat constructor; by eexists).
  split; [exact Hpre|]. split; [reflexivity|].
  exact (parse_missing_name_raises _ [] [("id", PyInt 4)] Hpre eq_refl).
Defined.

Lemma build_tags_preserves_rows_witness :
  (∃ movies, build_tags ascii_lower [avatar_row] = Ok movies ∧
     id <$> movies = [19995%Z] ∧ title <$> movies = ["Avatar"]).
Proof.
  eexists. split; [reflexivity|].
  destruct (build_tags_preserves_rows ascii_lower [avatar_row] _ eq_refl)
    as (_ & Hid & Ht).
  split; [exact Hid|exact Ht].
Defined.

Lemma load_artifacts_broken_witness :
  sparse_row ∈ [avatar_row; sparse_row] ∧
  broken_row sparse_row ∧
  raises (load_artifacts ascii_lower toy_analyze (λ _, [])
            [avatar_row; sparse_row]).
Proof.
  assert (sparse_row ∈ [avatar_row; sparse_row]) as Hin by (right; left).
  assert (broken_row sparse_row) as Hbroken by (left; left; reflexivity).
  split; [exact Hin|]. split; [exact Hbroken|].
  exact (load_artifacts_broken ascii_lower toy_analyze (λ _, [])
           [avatar_row; sparse_row] sparse_row Hin Hbroken).
Defined.

Lemma get_local_details_first_match_witness :
  Forall (λ r, csv_id r ≠ 370980%Z) [avatar_csv] ∧
  csv_id orphan_csv = 370980%Z ∧
  ∃ d, get_local_details [avatar_csv; orphan_csv; orphan_csv] 370980 = Some d ∧
       d_genres d = [].
Proof.
  assert (Forall (λ r, csv_id r ≠ 370980%Z) [avatar_csv]) as Hpre
    by (repeat constructor; discriminate).
  split; [exact Hpre|]. split; [reflexivity|].
  destruct (get_local_details_first_match [avatar_csv] [orphan_csv] orphan_csv
              370980 Hpre eq_refl)
    as (d & Hd & _ & _ & _ & _ & _ & _ & _ & _ & Hgenres).
  exists d. split; [exact Hd|]. apply Hgenres. left. reflexivity.
Defined.

Lemma index_rows_from_both_files_witness :
  build_tags ascii_lower (merge [avatar_csv; orphan_csv] [avatar_credits]) =
    Ok [ {| id := 19995; title := "Avatar";
            tags := "a paraplegic marine action adventure future sam worthington zoe saldana sigourney weaver james cameron" |} ] ∧
  length (merge [avatar_csv; orphan_csv] [avatar_credits]) = 1.
Proof.
  split; [reflexivity|].
  destruct (index_rows_from_both_files ascii_lower [avatar_csv; orphan_csv]
              [avatar_credits] _ eq_refl) as [Hlen _].
  rewrite <- Hlen. reflexivity.
Defined.

Example merge_drops_movie_without_credits :
  merge [avatar_csv; orphan_csv] [avatar_credits] = [avatar_row].
Proof. reflexivity. Qed.

Example get_local_details_avatar_genres :
  d_genres <$> get_local_details [avatar_csv; orphan_csv] 19995 =
    Some [PyStr "Action"; PyStr "Adventure"].
Proof. reflexivity. Qed.

Example fetch_poster_online :
  fetch_poster online_get (Some "key") 19995 0 =
    ("https://image.tmdb.org/t/p/w500/avatar.jpg", 1).
Proof. reflexivity. Qed.

Example parse_cast_tolerates_fourth_record :
  parse long_cast = Raise (KeyError "name") ∧
  parse_cast long_cast =
    Ok [PyStr "Sam Worthington"; PyStr "Zoe Saldana"; PyStr "Sigourney Weaver"].
Proof. by split. Qed.
